(** * LearnMate: session bootstrap, auth context and route guard

    A shallow embedding of the application shell [App] of the LearnMate
    front end (frontend/src/App.js): the effect that resolves the session
    on mount, the [logout] operation handed to the pages through
    [AuthContext], and the route table with its two guarded routes.

    The JavaScript values, the string methods, the browser's location and
    history and the promise chains that [App] relies on are modelled first;
    the component follows, statement by statement. *)

From Stdlib Require Import String Ascii List Bool Arith ZArith Lia.
Import ListNotations.
Local Open Scope string_scope.
Local Open Scope list_scope.

(** ** JavaScript values *)

Module JS.

(** The values that travel through [App]: response bodies, the [user]
    state, the argument of [console.error].  Objects are association
    lists from property names to values. *)
#[warnings="-register-all"]
Inductive value : Type :=
| VUndefined
| VNull
| VBool (b : bool)
| VNum (n : Z)
| VStr (s : string)
| VObj (fields : list (string * value)).

(** What a [throw] carries.  [TypeError] is raised by the language itself
    (a property read on [null] or [undefined]); [SecurityError] by
    [history.replaceState]; [Thrown] is a rejection reason supplied by the
    network layer. *)
Inductive exn : Type :=
| TypeError (msg : string)
| SecurityError (msg : string)
| Thrown (reason : value).

(** How an awaited promise settles. *)
Inductive settled (A : Type) : Type :=
| Fulfilled (x : A)
| Rejected (e : exn).
Arguments Fulfilled {A} x.
Arguments Rejected {A} e.

(** ToBoolean, as used by [user ? a : b] and [hash && ...]. *)
Definition truthy (v : value) : bool :=
  match v with
  | VUndefined | VNull => false
  | VBool b => b
  | VNum n => negb (Z.eqb n 0)
  | VStr "" => false
  | VStr _ => true
  | VObj _ => true
  end.

Definition nullish (v : value) : bool :=
  match v with
  | VUndefined | VNull => true
  | _ => false
  end.

Fixpoint assoc (k : string) (fields : list (string * value)) : option value :=
  match fields with
  | [] => None
  | (k', v) :: rest => if String.eqb k k' then Some v else assoc k rest
  end.

(** The property read [v.k].  On [null] and [undefined] it throws; on an
    object it is the field, or [undefined] when there is none.  On the
    other primitives it is [undefined]: [App] only reads [user], which no
    primitive prototype defines. *)
Definition get (v : value) (k : string) : exn + value :=
  match v with
  | VUndefined => inl (TypeError ("Cannot read properties of undefined (reading '" ++ k ++ "')"))
  | VNull => inl (TypeError ("Cannot read properties of null (reading '" ++ k ++ "')"))
  | VObj fields =>
      match assoc k fields with
      | Some x => inr x
      | None => inr VUndefined
      end
  | _ => inr VUndefined
  end.

(** *** String methods

    A string is its sequence of code units.  The separators that [App]
    searches for are ASCII, which no unit of a longer character equals. *)

Fixpoint drop (n : nat) (s : string) : string :=
  match n, s with
  | O, _ => s
  | S _, EmptyString => EmptyString
  | S k, String _ s' => drop k s'
  end.

(** [s.includes(sub)]: [sub] occurs somewhere in [s]. *)
Fixpoint includes (s sub : string) : bool :=
  String.prefix sub s ||
  match s with
  | EmptyString => false
  | String _ s' => includes s' sub
  end.

(** The scan of [String.prototype.split] for a separator that is not
    empty: [acc] is the piece being collected, [skip] counts the code
    units of a separator just matched that are still to be passed over. *)
Fixpoint split_scan (sep s : string) (skip : nat) (acc : string) : list string :=
  match s with
  | EmptyString => [acc]
  | String c s' =>
      match skip with
      | S k => split_scan sep s' k acc
      | O =>
          if String.prefix sep s
          then acc :: split_scan sep s' (String.length sep - 1) EmptyString
          else split_scan sep s' 0 (acc ++ String c EmptyString)
      end
  end.

Fixpoint chars (s : string) : list string :=
  match s with
  | EmptyString => []
  | String c s' => String c EmptyString :: chars s'
  end.

(** [s.split(sep)] without a limit.  With the empty separator the result
    is the list of code units. *)
Definition split (sep s : string) : list string :=
  match sep with
  | EmptyString => chars s
  | _ => split_scan sep s 0 EmptyString
  end.

(** The text of [s] in front of the first occurrence of [sep], all of [s]
    when there is none. *)
Fixpoint before (sep s : string) : string :=
  if String.prefix sep s then EmptyString
  else match s with
       | EmptyString => EmptyString
       | String c s' => String c (before sep s')
       end.

(** The text of [s] behind the first occurrence of [sep]. *)
Fixpoint after (sep s : string) : option string :=
  if String.prefix sep s then Some (drop (String.length sep) s)
  else match s with
       | EmptyString => None
       | String _ s' => after sep s'
       end.

End JS.

(** ** The browser: location, reference resolution, session history *)

Module Browser.
Import JS.

(** [window.location], the three parts the application reads.  [search]
    and [hash] are empty or start with their mark, as the browser reports
    them. *)
Record Location : Type := mkLocation {
  pathname : string;
  search : string;
  hash : string
}.

Definition marked (mark s : string) : string :=
  match s with
  | EmptyString => EmptyString
  | _ => mark ++ s
  end.

Definition or_empty (o : option string) : string :=
  match o with
  | Some s => s
  | None => EmptyString
  end.

(** The path of [p] up to and including its last slash. *)
Fixpoint dirname (p : string) : string :=
  match p with
  | EmptyString => EmptyString
  | String c p' =>
      if includes p' "/" then String c (dirname p')
      else if Ascii.eqb c "/" then "/" else EmptyString
  end.

(** Resolution of a URL reference without a scheme against the document's
    location, after RFC 3986, section 5.2.2: the fragment is what follows
    the first [#], the query what follows the first [?] in front of it,
    the rest is the path.  Dot segments are kept as they are.  A reference
    that starts with two slashes names an authority of its own: the model
    takes that for another origin and answers [None]. *)
Definition resolve (base : Location) (url : string) : option Location :=
  let fragment := after "#" url in
  let hier := before "#" url in
  let query := after "?" hier in
  let path := before "?" hier in
  if String.prefix "//" path then None
  else if String.prefix "/" path then
    Some (mkLocation path (marked "?" (or_empty query)) (marked "#" (or_empty fragment)))
  else
    match path with
    | EmptyString =>
        Some (mkLocation (pathname base)
                (match query with
                 | Some q => marked "?" q
                 | None => search base
                 end)
                (marked "#" (or_empty fragment)))
    | _ =>
        Some (mkLocation (dirname (pathname base) ++ path)
                (marked "?" (or_empty query)) (marked "#" (or_empty fragment)))
    end.

(** What [window.location.pathname] can be for an http(s) document: it
    starts with one slash and holds no [?] and no [#]. *)
Definition rooted (p : string) : bool :=
  String.prefix "/" p && negb (String.prefix "//" p)
  && negb (includes p "?") && negb (includes p "#").

(** The session history: the entries behind the current one (nearest
    first), the current entry, the entries ahead of it. *)
Record History : Type := mkHistory {
  behind : list Location;
  current : Location;
  ahead : list Location
}.

(** [history.pushState]: a new entry, the entries ahead are dropped. *)
Definition pushState (l : Location) (h : History) : History :=
  mkHistory (current h :: behind h) l [].

(** [history.replaceState]: the current entry is overwritten, nothing is
    added and nothing is loaded. *)
Definition replaceState (l : Location) (h : History) : History :=
  mkHistory (behind h) l (ahead h).

(** The back button. *)
Definition back (h : History) : History :=
  match behind h with
  | [] => h
  | l :: rest => mkHistory rest l (current h :: ahead h)
  end.

Definition entries (h : History) : list Location :=
  rev (behind h) ++ current h :: ahead h.

End Browser.

(** ** The application shell *)

Import JS Browser.

(** The three [useState] cells of [App]. *)
Record AppState : Type := mkAppState {
  user : value;
  loading : bool;
  processingAuth : bool
}.

(** An axios response; [App] reads nothing but [data]. *)
Record response : Type := mkResponse {
  data : value
}.

Inductive method : Type := GET | POST.

(** What the shell does to the outside, in the order it does it. *)
Inductive event : Type :=
| Request (m : method) (url : string) (body : option value)
| ConsoleError (msg : string) (detail : exn)
| HistoryReplace (url : string).

(** The request of the mount effect that has not settled yet. *)
Inductive resolution : Type :=
| SessionPath
| MePath.

(** The state of one page load: the component state, the session history
    (its current entry is [window.location]), the events so far, the
    resolver's request in flight, and the number of [logout] calls that
    wait for their response. *)
Record World : Type := mkWorld {
  app : AppState;
  history : History;
  log : list event;
  resolving : option resolution;
  logouts : nat
}.

(** *** Statements: state and exceptions

    A statement runs in a world and ends normally or by a [throw]; what it
    did to the world before throwing stays done. *)
Definition M (A : Type) : Type := World -> (exn + A) * World.

Definition ret {A : Type} (x : A) : M A := fun w => (inr x, w).

Definition throw {A : Type} (e : exn) : M A := fun w => (inl e, w).

Definition bind {A B : Type} (c : M A) (k : A -> M B) : M B :=
  fun w =>
    match c w with
    | (inr x, w') => k x w'
    | (inl e, w') => (inl e, w')
    end.

Notation "x <- c ;; k" := (bind c (fun x => k))
  (at level 61, c at next level, right associativity).
Notation "c ;; k" := (bind c (fun _ => k))
  (at level 61, right associativity).

Definition lift {A : Type} (r : exn + A) : M A := fun w => (r, w).

(** [promise.catch(handler)] on a computation that already ran. *)
Definition catch {A : Type} (c : M A) (handler : exn -> M A) : M A :=
  fun w =>
    match c w with
    | (inl e, w') => handler e w'
    | ok => ok
    end.

(** [promise.finally(cleanup)]: [cleanup] runs either way and the outcome
    passes through, unless [cleanup] itself throws. *)
Definition finally {A : Type} (c : M A) (cleanup : M unit) : M A :=
  fun w =>
    match c w with
    | (r, w') =>
        match cleanup w' with
        | (inr _, w'') => (r, w'')
        | (inl e, w'') => (inl e, w'')
        end
    end.

(** [promise.then(onFulfilled)]: the handler runs on fulfilment, a
    rejection passes through. *)
Definition then_ {A B : Type} (p : settled A) (onFulfilled : A -> M B) : M B :=
  match p with
  | Fulfilled x => onFulfilled x
  | Rejected e => throw e
  end.

Definition update (f : World -> World) : M unit := fun w => (inr tt, f w).

Definition emit (e : event) : M unit :=
  update (fun w => mkWorld (app w) (history w) (log w ++ [e]) (resolving w) (logouts w)).

Definition setApp (f : AppState -> AppState) : M unit :=
  update (fun w => mkWorld (f (app w)) (history w) (log w) (resolving w) (logouts w)).

Definition setUser (v : value) : M unit :=
  setApp (fun s => mkAppState v (loading s) (processingAuth s)).

Definition setLoading (b : bool) : M unit :=
  setApp (fun s => mkAppState (user s) b (processingAuth s)).

Definition setProcessingAuth (b : bool) : M unit :=
  setApp (fun s => mkAppState (user s) (loading s) b).

Definition setResolving (r : option resolution) : M unit :=
  update (fun w => mkWorld (app w) (history w) (log w) r (logouts w)).

Definition setLogouts (f : nat -> nat) : M unit :=
  update (fun w => mkWorld (app w) (history w) (log w) (resolving w) (f (logouts w))).

Definition window_location : M Location := fun w => (inr (current (history w)), w).

Definition console_error (msg : string) (detail : exn) : M unit :=
  emit (ConsoleError msg detail).

(** [window.history.replaceState(null, '', url)]: the reference is
    resolved against the document, the current entry is overwritten. *)
Definition window_history_replaceState (url : string) : M unit :=
  here <- window_location ;;
  match resolve here url with
  | None => throw (SecurityError "replaceState: the URL is of another origin")
  | Some there =>
      emit (HistoryReplace url) ;;
      update (fun w => mkWorld (app w) (replaceState there (history w))
                         (log w) (resolving w) (logouts w))
  end.

Inductive page : Type := Home | Features | AITutor | Dashboard.

(** What [App] returns for a location: the spinner, a page inside the
    provider, a [<Navigate>], or nothing when no route matches. *)
Inductive element : Type :=
| LoadingScreen
| Show (p : page)
| Navigate (to : string) (replace : bool)
| NoMatch.

(** The resolution outcome that the two flags and [user] stand for. *)
Inductive phase : Type := PENDING | AUTHENTICATED | ANONYMOUS.

(** What can happen to a mounted [App]: the resolver's request settles, a
    page calls [logout], a logout request settles. *)
Inductive op : Type :=
| ResolverSettles (p : settled response)
| LogoutCalled
| LogoutSettles (p : settled response).

Section Shell.

(** [process.env.REACT_APP_BACKEND_URL], fixed at build time. *)
Variable BACKEND_URL : string.

Definition API : string := BACKEND_URL ++ "/api".

Definition axios_post (url : string) (body : option value) : M unit :=
  emit (Request POST url body).

Definition axios_get (url : string) : M unit :=
  emit (Request GET url None).

(** [hash.split('session_id=')[1].split('&')[0]].  An index past the end
    of an array reads [undefined]; calling [split] on that throws. *)
Definition sessionId (hash : string) : exn + value :=
  match nth_error (split "session_id=" hash) 1 with
  | None => inl (TypeError "Cannot read properties of undefined (reading 'split')")
  | Some part =>
      match nth_error (split "&" part) 0 with
      | Some token => inr (VStr token)
      | None => inr VUndefined
      end
  end.

(** The body of [useEffect(() => { ... }, [])] up to the point where the
    request is on its way. *)
Definition resolver : M unit :=
  here <- window_location ;;
  let hash := Browser.hash here in
  if truthy (VStr hash) && includes hash "session_id=" then
    setProcessingAuth true ;;
    sid <- lift (sessionId hash) ;;
    axios_post (API ++ "/auth/session") (Some (VObj [("session_id", sid)])) ;;
    setResolving (Some SessionPath)
  else
    axios_get (API ++ "/auth/me") ;;
    setResolving (Some MePath).

(** The [.then].[.catch].[.finally] chain on the session request. *)
Definition session_then (r : response) : M unit :=
  u <- lift (get (data r) "user") ;;
  setUser u ;;
  here <- window_location ;;
  window_history_replaceState (pathname here).

Definition session_catch (err : exn) : M unit :=
  console_error "Session processing failed:" err.

Definition session_finally : M unit :=
  setProcessingAuth false ;;
  setLoading false.

Definition session_settled (p : settled response) : M unit :=
  finally (catch (then_ p session_then) session_catch) session_finally.

(** The chain on the [/auth/me] request. *)
Definition me_then (r : response) : M unit := setUser (data r).

Definition me_catch (_ : exn) : M unit := setUser VNull.

Definition me_finally : M unit := setLoading false.

Definition me_settled (p : settled response) : M unit :=
  finally (catch (then_ p me_then) me_catch) me_finally.

(** [logout], cut at its [await]: the call sends the request, the
    continuation runs when the request settles.  The [try] spans both. *)
Definition logout_call : M unit :=
  axios_post (API ++ "/auth/logout") None ;;
  setLogouts S.

Definition logout_resume (p : settled response) : M unit :=
  setLogouts Nat.pred ;;
  catch (then_ p (fun _ => setUser VNull))
        (fun error => console_error "Logout failed:" error).

Definition logout (p : settled response) : M unit :=
  logout_call ;;
  logout_resume p.

(** How the router matches the path of a [<Route path=...>] without
    parameters against the location: letter case is ignored, and so are
    slashes at the end ([^/tutor\/*$] with the flag [i]).  The paths of
    the routes are ASCII, and under that flag no other character equals
    an ASCII letter. *)
Definition lower (c : ascii) : ascii :=
  let n := nat_of_ascii c in
  if Nat.leb 65 n && Nat.leb n 90 then ascii_of_nat (n + 32) else c.

Fixpoint all_slashes (s : string) : bool :=
  match s with
  | EmptyString => true
  | String c s' => Ascii.eqb c "/" && all_slashes s'
  end.

Fixpoint route_match (route path : string) : bool :=
  match route with
  | EmptyString => all_slashes path
  | String r route' =>
      match path with
      | EmptyString => false
      | String c path' => Ascii.eqb (lower r) (lower c) && route_match route' path'
      end
  end.

(** The render of [App] at a path. *)
Definition App (s : AppState) (path : string) : element :=
  if loading s || processingAuth s then LoadingScreen
  else if route_match "/" path then Show Home
  else if route_match "/features" path then Show Features
  else if route_match "/tutor" path then
    if truthy (user s) then Show AITutor else Navigate "/" true
  else if route_match "/dashboard" path then
    if truthy (user s) then Show Dashboard else Navigate "/" true
  else NoMatch.

(** What [<Navigate to replace>] does to the session history. *)
Definition navigate (to : string) (replace : bool) (h : History) : History :=
  match resolve (current h) to with
  | Some there => if replace then replaceState there h else pushState there h
  | None => h
  end.

(** Rendering until no [<Navigate>] is left: the history at the end and
    everything [App] returned on the way, oldest first. *)
Fixpoint present (fuel : nat) (s : AppState) (h : History) : option (History * list element) :=
  match fuel with
  | O => None
  | S k =>
      match App s (pathname (current h)) with
      | Navigate to replace =>
          match present k s (navigate to replace h) with
          | Some (h', shown) => Some (h', Navigate to replace :: shown)
          | None => None
          end
      | e => Some (h, [e])
      end
  end.

(** A view is requested inside the running application: a new history
    entry, then the render. *)
Definition request (fuel : nat) (s : AppState) (path : string) (h : History)
  : option (History * list element) :=
  present fuel s (pushState (mkLocation path "" "") h).

(** Requests one after the other. *)
Fixpoint requests (fuel : nat) (s : AppState) (paths : list string) (h : History)
  : option (History * list element) :=
  match paths with
  | [] => Some (h, [])
  | path :: rest =>
      match request fuel s path h with
      | None => None
      | Some (h', shown) =>
          match requests fuel s rest h' with
          | None => None
          | Some (h'', shown') => Some (h'', shown ++ shown')
          end
      end
  end.

(** The first render: [useState(null)], [useState(true)],
    [useState(false)], nothing sent yet. *)
Definition initial (h : History) : World :=
  mkWorld (mkAppState VNull true false) h [] None 0.

(** The page load up to the pending request. *)
Definition mount (h : History) : World := snd (resolver (initial h)).

Definition pending (s : AppState) : bool := loading s || processingAuth s.

Definition phase_of (s : AppState) : phase :=
  if pending s then PENDING
  else if truthy (user s) then AUTHENTICATED
  else ANONYMOUS.

(** One operation.  The resolver's chain runs when its request is in
    flight; [logout] can be called once the provider is rendered; a logout
    continuation runs when a logout request is in flight. *)
Definition step (o : op) (w : World) : option World :=
  match o with
  | ResolverSettles p =>
      match resolving w with
      | Some SessionPath => Some (snd ((setResolving None ;; session_settled p) w))
      | Some MePath => Some (snd ((setResolving None ;; me_settled p) w))
      | None => None
      end
  | LogoutCalled =>
      if pending (app w) then None else Some (snd (logout_call w))
  | LogoutSettles p =>
      match logouts w with
      | O => None
      | S _ => Some (snd (logout_resume p w))
      end
  end.

Fixpoint run (ops : list op) (w : World) : option World :=
  match ops with
  | [] => Some w
  | o :: rest =>
      match step o w with
      | Some w' => run rest w'
      | None => None
      end
  end.

(** A page load whose resolver request settles as [p]. *)
Definition load (h : History) (p : settled response) : option World :=
  step (ResolverSettles p) (mount h).

Definition is_request (m : method) (url : string) (e : event) : bool :=
  match e with
  | Request m' url' _ =>
      match m, m' with
      | GET, GET | POST, POST => String.eqb url url'
      | _, _ => false
      end
  | _ => false
  end.

Definition calls (m : method) (url : string) (l : list event) : nat :=
  List.length (filter (is_request m url) l).

Definition is_console_error (e : event) : bool :=
  match e with
  | ConsoleError _ _ => true
  | _ => false
  end.

End Shell.

(** ** Vocabulary of the statements *)

(** The landing view's location. *)
Definition home : Location := mkLocation "/" "" "".

(** The two guarded routes. *)
Definition protected (path : string) : bool :=
  route_match "/tutor" path || route_match "/dashboard" path.

Definition page_at (path : string) : page :=
  if route_match "/tutor" path then AITutor else Dashboard.

(** The render that follows a change of the component state: [App] is
    rendered at the current entry, and a [<Navigate>] it returns is
    carried out; two rounds, since a redirect leads to [/]. *)
Definition with_history (h : History) (w : World) : World :=
  mkWorld (app w) h (log w) (resolving w) (logouts w).

Definition render (w : World) : option World :=
  match present 2 (app w) (history w) with
  | Some (h', _) => Some (with_history h' w)
  | None => None
  end.

(** The token the resolver sends for a fragment: the text behind the first
    [session_id=], cut at the next [session_id=] and then at the next
    [&]. *)
Definition token_of (hash : string) : string :=
  before "&" (before "session_id=" (or_empty (after "session_id=" hash))).

(** Following the words of the specification: the substring between
    [session_id=] and the next [&], or the end of the string. *)
Definition spec_token (hash : string) : string :=
  before "&" (or_empty (after "session_id=" hash)).

(** An axios call settled with a body the handler can read. *)
Definition succeeded (p : settled response) : bool :=
  match p with
  | Fulfilled r => negb (nullish (data r))
  | Rejected _ => false
  end.

(** The two requests a resolution can make. *)
Definition resolution_call (BACKEND_URL : string) (e : event) : bool :=
  is_request POST (API BACKEND_URL ++ "/auth/session") e
  || is_request GET (API BACKEND_URL ++ "/auth/me") e.

(** What links the resolver's request in flight to the two flags. *)
Definition consistent (w : World) : Prop :=
  match resolving w with
  | Some SessionPath => loading (app w) = true
  | Some MePath => loading (app w) = true /\ processingAuth (app w) = false
  | None => loading (app w) = false /\ processingAuth (app w) = false
  end.

(** The worlds of a page load. *)
Definition reachable (BACKEND_URL : string) (h : History) (w : World) : Prop :=
  exists ops, run BACKEND_URL ops (mount BACKEND_URL h) = Some w.

(** The component states that occur while the session resolution has not
    settled: the first render, any world whose resolver request is still in
    flight, and the renders between the handlers of the promise chain and
    its [finally]. *)
Inductive unsettled (BACKEND_URL : string) (h : History) : AppState -> Prop :=
| first_render :
    unsettled BACKEND_URL h (app (initial h))
| request_in_flight (ops : list op) (w : World) :
    run BACKEND_URL ops (mount BACKEND_URL h) = Some w ->
    resolving w <> None ->
    unsettled BACKEND_URL h (app w)
| session_handlers_ran (p : settled response) :
    resolving (mount BACKEND_URL h) = Some SessionPath ->
    unsettled BACKEND_URL h
      (app (snd (catch (then_ p session_then) session_catch (mount BACKEND_URL h))))
| me_handlers_ran (p : settled response) :
    resolving (mount BACKEND_URL h) = Some MePath ->
    unsettled BACKEND_URL h
      (app (snd (catch (then_ p me_then) me_catch (mount BACKEND_URL h)))).

(** ** The pages

    What the pages below the shell compute and do: the handlers of [Home]
    and [Features] that start a login or a logout, the figures and the
    fetch of [Dashboard], the chat of [AITutor]. *)

(** What a page does to the outside: what the shell can do, and the error
    toasts. *)
Inductive notice : Type :=
| Did (e : event)
| ToastError (msg : string).

(** *** Statements of a page over its own state *)

Module Page.

Section Statements.

Variable S : Type.

Definition Stmt (A : Type) : Type :=
  S * list notice -> (exn + A) * (S * list notice).

Definition ret {A : Type} (x : A) : Stmt A := fun w => (inr x, w).

Definition throw {A : Type} (e : exn) : Stmt A := fun w => (inl e, w).

Definition bind {A B : Type} (c : Stmt A) (k : A -> Stmt B) : Stmt B :=
  fun w =>
    match c w with
    | (inr x, w') => k x w'
    | (inl e, w') => (inl e, w')
    end.

Definition lift {A : Type} (r : exn + A) : Stmt A := fun w => (r, w).

(** [try { c } catch (e) { handler }]. *)
Definition catch {A : Type} (c : Stmt A) (handler : exn -> Stmt A) : Stmt A :=
  fun w =>
    match c w with
    | (inl e, w') => handler e w'
    | ok => ok
    end.

(** [try { c } finally { cleanup }]. *)
Definition finally {A : Type} (c : Stmt A) (cleanup : Stmt unit) : Stmt A :=
  fun w =>
    match c w with
    | (r, w') =>
        match cleanup w' with
        | (inr _, w'') => (r, w'')
        | (inl e, w'') => (inl e, w'')
        end
    end.

(** [await p]. *)
Definition await {A : Type} (p : settled A) : Stmt A :=
  match p with
  | Fulfilled x => ret x
  | Rejected e => throw e
  end.

Definition read : Stmt S := fun w => (inr (fst w), w).

Definition modify (f : S -> S) : Stmt unit := fun w => (inr tt, (f (fst w), snd w)).

Definition emit (n : notice) : Stmt unit :=
  fun w => (inr tt, (fst w, (snd w ++ [n])%list)).

Definition console_error (msg : string) (detail : exn) : Stmt unit :=
  emit (Did (ConsoleError msg detail)).

Definition toast_error (msg : string) : Stmt unit := emit (ToastError msg).

Definition axios_get (url : string) : Stmt unit :=
  emit (Did (Request GET url None)).

Definition axios_post (url : string) (body : option value) : Stmt unit :=
  emit (Did (Request POST url body)).

End Statements.

Arguments ret {S A} x.
Arguments throw {S A} e.
Arguments bind {S A B} c k.
Arguments lift {S A} r.
Arguments catch {S A} c handler.
Arguments finally {S A} c cleanup.
Arguments await {S A} p.
Arguments read {S}.
Arguments modify {S} f.
Arguments emit {S} n.
Arguments console_error {S} msg detail.
Arguments toast_error {S} msg.
Arguments axios_get {S} url.
Arguments axios_post {S} url body.

End Page.

Declare Scope page_scope.
Notation "x <- c ;; k" := (Page.bind c (fun x => k))
  (at level 61, c at next level, right associativity) : page_scope.
Notation "c ;; k" := (Page.bind c (fun _ => k))
  (at level 61, right associativity) : page_scope.

(** *** More of the language *)

Module JSMore.

(** The optional read [v?.k]: [undefined] on [null] and [undefined]. *)
Definition optional (v : value) (k : string) : value :=
  if nullish v then VUndefined
  else match get v k with
       | inr x => x
       | inl _ => VUndefined
       end.

(** [a || b]. *)
Definition or_else (a b : value) : value := if truthy a then a else b.

(** The white space and line terminators of the language among the code
    units below 256: TAB, LF, VT, FF, CR, SP and NBSP. *)
Definition white (c : ascii) : bool :=
  let n := nat_of_ascii c in
  (Nat.leb 9 n && Nat.leb n 13) || Nat.eqb n 32 || Nat.eqb n 160.

Fixpoint trimStart (s : string) : string :=
  match s with
  | EmptyString => EmptyString
  | String c s' => if white c then trimStart s' else s
  end.

Fixpoint trimEnd (s : string) : string :=
  match s with
  | EmptyString => EmptyString
  | String c s' =>
      match trimEnd s' with
      | EmptyString => if white c then EmptyString else String c EmptyString
      | kept => String c kept
      end
  end.

(** [s.trim()]. *)
Definition trim (s : string) : string := trimEnd (trimStart s).

(** The characters [encodeURIComponent] leaves alone: letters, digits and
    [- _ . ! ~ * ' ( )]. *)
Definition unreserved (c : ascii) : bool :=
  let n := nat_of_ascii c in
  (Nat.leb 48 n && Nat.leb n 57) || (Nat.leb 65 n && Nat.leb n 90)
  || (Nat.leb 97 n && Nat.leb n 122)
  || includes "-_.!~*'()" (String c EmptyString).

Definition hex (n : nat) : ascii :=
  nth n (list_ascii_of_string "0123456789ABCDEF") "0"%char.

Definition percent (byte : nat) : string :=
  String "%" (String (hex (byte / 16)) (String (hex (byte mod 16)) EmptyString)).

(** One code unit below 256 is one code point; its UTF-8 form has one
    octet below 128 and two from there on. *)
Definition encode_unit (c : ascii) : string :=
  if unreserved c then String c EmptyString
  else
    let n := nat_of_ascii c in
    if Nat.ltb n 128 then percent n
    else percent (192 + n / 64) ++ percent (128 + n mod 64).

(** [encodeURIComponent(s)].  It throws on a lone surrogate only, and no
    code unit below 256 is one. *)
Fixpoint encodeURIComponent (s : string) : string :=
  match s with
  | EmptyString => EmptyString
  | String c s' => encode_unit c ++ encodeURIComponent s'
  end.

End JSMore.

Import JSMore.

(** *** Home and Features: login and logout *)

(** [encodeURIComponent(`${window.location.origin}/tutor`)]. *)
Definition redirectUrl (origin : string) : string :=
  encodeURIComponent (origin ++ "/tutor").

Definition loginUrl (origin : string) : string :=
  "https://auth.emergentagent.com/?redirect=" ++ redirectUrl origin.

(** [navigate(to)] of [useNavigate]: a new history entry. *)
Definition useNavigate (to : string) : M unit :=
  update (fun w => mkWorld (app w) (navigate to false (history w))
                     (log w) (resolving w) (logouts w)).

(** [handleGetStarted] of [Home].  Assigning [window.location.href] leaves
    the document: the answer is the URL it is left for, if any. *)
Definition handleGetStarted (origin : string) : M (option string) :=
  fun w =>
    if truthy (user (app w))
    then (useNavigate "/tutor" ;; ret None) w
    else ret (Some (loginUrl origin)) w.

(** The button at the foot of [Features]:
    [window.location.href = user ? '/tutor' : loginUrl]. *)
Definition featuresCta (origin : string) (s : AppState) : string :=
  if truthy (user s) then "/tutor" else loginUrl origin.

(** What the navigation bar of [Features] offers besides Home and
    Features: the two guarded links, or the login button. *)
Inductive offer : Type :=
| GuardedLinks (tutor dashboard : string)
| LoginButton (url : string).

Definition featuresNav (origin : string) (s : AppState) : offer :=
  if truthy (user s) then GuardedLinks "/tutor" "/dashboard"
  else LoginButton (loginUrl origin).

Section HomeHandlers.

Variable BACKEND_URL : string.

(** [handleLogout] of [Home]: [await logout(); navigate('/')]. *)
Definition handleLogout (p : settled response) : M unit :=
  logout BACKEND_URL p ;;
  useNavigate "/".

(** A document loaded by assigning a same-origin [url] to
    [window.location.href]: a new entry, a fresh [App]. *)
Definition assign (url : string) (h : History) : option World :=
  match resolve (current h) url with
  | Some there => Some (mount BACKEND_URL (pushState there h))
  | None => None
  end.

End HomeHandlers.

(** *** Dashboard *)

Module DashboardPage.

Local Open Scope page_scope.

(** The three [useState] cells of [Dashboard]. *)
Record State : Type := mkState {
  progress : value;
  quizResults : value;
  loading : bool
}.

(** [useState(null)], [useState([])], [useState(true)]; the empty array
    stands as an object without fields. *)
Definition initial : State := mkState VNull (VObj []) true.

(** [Promise.all([p1, p2])]: fulfilled with both values, or rejected with
    the reason of the promise that was rejected first; [second_first] says
    that the second one settled before the first. *)
Definition promise_all {A B : Type} (p1 : settled A) (p2 : settled B)
  (second_first : bool) : settled (A * B) :=
  match p1, p2 with
  | Fulfilled x, Fulfilled y => Fulfilled (x, y)
  | Rejected e, Fulfilled _ => Rejected e
  | Fulfilled _, Rejected e => Rejected e
  | Rejected e1, Rejected e2 => Rejected (if second_first then e2 else e1)
  end.

Section Fetch.

Variable BACKEND_URL : string.

Definition fetchDashboardData (p1 p2 : settled response) (second_first : bool)
  : Page.Stmt State unit :=
  Page.finally
    (Page.catch
       (Page.axios_get (API BACKEND_URL ++ "/progress") ;;
        Page.axios_get (API BACKEND_URL ++ "/quiz/results") ;;
        both <- Page.await (promise_all p1 p2 second_first) ;;
        let (progressRes, quizRes) := both in
        Page.modify (fun s => mkState (data progressRes) (quizResults s) (loading s)) ;;
        Page.modify (fun s => mkState (progress s) (data quizRes) (loading s)))
       (fun error =>
          Page.console_error "Failed to fetch dashboard data:" error ;;
          Page.toast_error "Failed to load dashboard data"))
    (Page.modify (fun s => mkState (progress s) (quizResults s) false)).

End Fetch.

(** The whole numbers that a double holds exactly, one by one: up to
    2^53 in absolute value. *)
Definition safe (n : Z) : bool := (Z.abs n <=? 2 ^ 53)%Z.

(** [getXPLevel] and [getXPProgress] on a whole number of points:
    [Math.floor(xp / 100) + 1] and [xp % 100], whose sign is the sign of
    [xp].  On a safe [xp] the rounding of the quotient stays within 1/128
    of it and does not reach the next whole number, so the floor is the
    floor of the exact quotient.  Beyond the safe numbers the arithmetic
    of doubles rounds; that is left without an answer here. *)
Definition getXPLevel (xp : Z) : option Z :=
  if safe xp then Some (xp / 100 + 1)%Z else None.

Definition getXPProgress (xp : Z) : option Z :=
  if safe xp then Some (Z.rem xp 100) else None.

(** [progress?.xp_points || 0]. *)
Definition xp_points (progress : value) : value :=
  or_else (optional progress "xp_points") (VNum 0).

(** [user?.name?.split(' ')[0]] of the greeting.  The chain ends with
    [undefined] at the first [null] or [undefined]; a name that is neither
    that nor a string has no [split] to call. *)
Definition firstName (user : value) : exn + value :=
  if nullish user then inr VUndefined
  else
    match get user "name" with
    | inl e => inl e
    | inr name =>
        if nullish name then inr VUndefined
        else
          match name with
          | VStr s =>
              match nth_error (split " " s) 0 with
              | Some first => inr (VStr first)
              | None => inr VUndefined
              end
          | _ => inl (TypeError "user?.name?.split is not a function")
          end
    end.

End DashboardPage.

(** *** AITutor *)

Module TutorPage.

Local Open Scope page_scope.

(** A topic as the sidebar lists it. *)
Record Topic : Type := mkTopic {
  id : value;
  name : string;
  icon : value
}.

Record Message : Type := mkMessage {
  role : string;
  content : value;
  timestamp : value
}.

(** The [useState] cells of [AITutor], and the number of chat requests
    that wait for their response. *)
Record State : Type := mkState {
  topics : value;
  selectedTopic : option Topic;
  messages : list Message;
  inputMessage : string;
  loading : bool;
  chatId : value;
  inflight : nat
}.

(** The first render; the empty array of [topics] stands as an object
    without fields. *)
Definition initial : State := mkState (VObj []) None [] "" false VNull 0.

Definition setTopics (v : value) : Page.Stmt State unit :=
  Page.modify (fun s => mkState v (selectedTopic s) (messages s) (inputMessage s)
                          (loading s) (chatId s) (inflight s)).

Definition setSelectedTopic (t : option Topic) : Page.Stmt State unit :=
  Page.modify (fun s => mkState (topics s) t (messages s) (inputMessage s)
                          (loading s) (chatId s) (inflight s)).

Definition setMessages (f : list Message -> list Message) : Page.Stmt State unit :=
  Page.modify (fun s => mkState (topics s) (selectedTopic s) (f (messages s))
                          (inputMessage s) (loading s) (chatId s) (inflight s)).

Definition setInputMessage (text : string) : Page.Stmt State unit :=
  Page.modify (fun s => mkState (topics s) (selectedTopic s) (messages s) text
                          (loading s) (chatId s) (inflight s)).

Definition setLoading (b : bool) : Page.Stmt State unit :=
  Page.modify (fun s => mkState (topics s) (selectedTopic s) (messages s)
                          (inputMessage s) b (chatId s) (inflight s)).

Definition setChatId (v : value) : Page.Stmt State unit :=
  Page.modify (fun s => mkState (topics s) (selectedTopic s) (messages s)
                          (inputMessage s) (loading s) v (inflight s)).

Definition setInflight (f : nat -> nat) : Page.Stmt State unit :=
  Page.modify (fun s => mkState (topics s) (selectedTopic s) (messages s)
                          (inputMessage s) (loading s) (chatId s) (f (inflight s))).

Definition greeting (topic : Topic) (now : string) : Message :=
  mkMessage "assistant"
    (VStr ("Hi! I'm your AI Tutor for " ++ name topic
           ++ ". What would you like to learn today?"))
    (VStr now).

(** [now] is [new Date().toISOString()] at the call. *)
Definition handleTopicSelect (topic : Topic) (now : string) : Page.Stmt State unit :=
  setSelectedTopic (Some topic) ;;
  setMessages (fun _ => [greeting topic now]) ;;
  setChatId VNull.

Section Chat.

Variable BACKEND_URL : string.

Definition fetchTopics (p : settled response) : Page.Stmt State unit :=
  Page.catch
    (Page.axios_get (API BACKEND_URL ++ "/topics") ;;
     response <- Page.await p ;;
     list <- Page.lift (get (data response) "topics") ;;
     setTopics list)
    (fun error => Page.console_error "Failed to fetch topics:" error).

(** [handleSendMessage] up to its [await]: the answer says whether a
    request went out.  [inputMessage], [selectedTopic] and [chatId] are
    those of the render the handler belongs to. *)
Definition handleSendMessage_call (now : string) : Page.Stmt State bool :=
  s <- Page.read ;;
  match selectedTopic s with
  | None => Page.ret false
  | Some topic =>
      if negb (truthy (VStr (trim (inputMessage s)))) then Page.ret false
      else
        let userMessage := mkMessage "user" (VStr (inputMessage s)) (VStr now) in
        setMessages (fun prev => prev ++ [userMessage])%list ;;
        setInputMessage "" ;;
        setLoading true ;;
        Page.axios_post (API BACKEND_URL ++ "/chat")
          (Some (VObj [("message", VStr (inputMessage s));
                       ("topic", VStr (name topic));
                       ("chat_id", chatId s)])) ;;
        setInflight S ;;
        Page.ret true
  end.

(** [handleSendMessage] from its [await] on. *)
Definition handleSendMessage_resume (p : settled response) : Page.Stmt State unit :=
  setInflight Nat.pred ;;
  Page.finally
    (Page.catch
       (response <- Page.await p ;;
        chat_id <- Page.lift (get (data response) "chat_id") ;;
        setChatId chat_id ;;
        text <- Page.lift (get (data response) "response") ;;
        stamp <- Page.lift (get (data response) "timestamp") ;;
        setMessages (fun prev => prev ++ [mkMessage "assistant" text stamp])%list)
       (fun error =>
          Page.console_error "Chat error:" error ;;
          Page.toast_error "Failed to send message. Please try again."))
    (setLoading false).

Definition handleSendMessage (now : string) (p : settled response)
  : Page.Stmt State unit :=
  sent <- handleSendMessage_call now ;;
  if sent then handleSendMessage_resume p else Page.ret tt.

(** [handleKeyPress]: Enter without Shift sends. *)
Definition handleKeyPress (key : string) (shiftKey : bool) (now : string)
  : Page.Stmt State bool :=
  if String.eqb key "Enter" && negb shiftKey
  then handleSendMessage_call now
  else Page.ret false.

(** What a visitor and the network can do to the page.  The input and the
    send button exist once a topic is selected; the input is disabled
    while [loading], the button while [loading] or while the input is
    blank. *)
Inductive action : Type :=
| TopicsSettle (p : settled response)
| SelectTopic (topic : Topic) (now : string)
| TypeText (text : string)
| PressKey (key : string) (shiftKey : bool) (now : string)
| ClickSend (now : string)
| ChatSettles (p : settled response).

Definition has_topic (s : State) : bool :=
  match selectedTopic s with
  | Some _ => true
  | None => false
  end.

Definition act (a : action) (w : State * list notice) : option (State * list notice) :=
  let s := fst w in
  match a with
  | TopicsSettle p => Some (snd (fetchTopics p w))
  | SelectTopic topic now => Some (snd (handleTopicSelect topic now w))
  | TypeText text =>
      if has_topic s && negb (loading s) then Some (snd (setInputMessage text w)) else None
  | PressKey key shiftKey now =>
      if has_topic s && negb (loading s)
      then Some (snd (handleKeyPress key shiftKey now w)) else None
  | ClickSend now =>
      if has_topic s && negb (loading s || negb (truthy (VStr (trim (inputMessage s)))))
      then Some (snd (handleSendMessage_call now w)) else None
  | ChatSettles p =>
      match inflight s with
      | O => None
      | S _ => Some (snd (handleSendMessage_resume p w))
      end
  end.

Fixpoint acts (l : list action) (w : State * list notice) : option (State * list notice) :=
  match l with
  | [] => Some w
  | a :: rest =>
      match act a w with
      | Some w' => acts rest w'
      | None => None
      end
  end.

End Chat.

End TutorPage.

(** ** Vocabulary of the further statements *)

(** The identity a fulfilled resolver request carries: [response.data.user]
    on the session path, [response.data] on the [/auth/me] path. *)
Definition identity (hash : string) (r : response) : exn + value :=
  if includes hash "session_id=" then get (data r) "user" else inr (data r).

(** The life of a mounted shell: operations, and renders in between. *)
Inductive moment : Type :=
| Core (o : op)
| Render.

Definition moment_step (BACKEND_URL : string) (m : moment) (w : World) : option World :=
  match m with
  | Core o => step BACKEND_URL o w
  | Render => render w
  end.

Fixpoint live (BACKEND_URL : string) (l : list moment) (w : World) : option World :=
  match l with
  | [] => Some w
  | m :: rest =>
      match moment_step BACKEND_URL m w with
      | Some w' => live BACKEND_URL rest w'
      | None => None
      end
  end.

(** The chat id after a course of actions that started with [start]: the
    [chat_id] of the last reply that came with a body, or [null] when a
    topic was selected after it. *)
Definition chat_id_step (held : value) (a : TutorPage.action) : value :=
  match a with
  | TutorPage.ChatSettles (Fulfilled r) =>
      if nullish (data r) then held else optional (data r) "chat_id"
  | TutorPage.SelectTopic _ _ => VNull
  | _ => held
  end.

Definition chat_id_after (l : list TutorPage.action) (start : value) : value :=
  fold_left chat_id_step l start.

(** Reading one code unit back from the front of an encoding. *)
Definition unhex (c : ascii) : nat :=
  match String.index 0 (String c EmptyString) "0123456789ABCDEF" with
  | Some n => n
  | None => 0
  end.

Definition octet (a b : ascii) : nat := 16 * unhex a + unhex b.

Definition decode_unit (s : string) : option (ascii * string) :=
  match s with
  | EmptyString => None
  | String c rest =>
      if Ascii.eqb c "%" then
        match rest with
        | String a (String b rest') =>
            if Nat.ltb (octet a b) 128 then Some (ascii_of_nat (octet a b), rest')
            else
              match rest' with
              | String _ (String a' (String b' rest'')) =>
                  Some (ascii_of_nat ((octet a b - 192) * 64 + (octet a' b' - 128)), rest'')
              | _ => None
              end
        | _ => None
        end
      else Some (c, rest)
  end.

(** The request a send makes from the state [s] with [topic] selected. *)
Definition chat_request (BACKEND_URL : string) (s : TutorPage.State)
  (topic : TutorPage.Topic) : notice :=
  Did (Request POST (API BACKEND_URL ++ "/chat")
         (Some (VObj [("message", VStr (TutorPage.inputMessage s));
                      ("topic", VStr (TutorPage.name topic));
                      ("chat_id", TutorPage.chatId s)]))).

(** What holds of the chat at every moment: at most one request waits for
    its response, [loading] says whether one does, and the conversation
    opens with the greeting of the selected topic; without a topic there
    is no conversation and no request. *)
Definition tutor_consistent (s : TutorPage.State) : Prop :=
  TutorPage.inflight s <= 1 /\
  (TutorPage.loading s = true <-> TutorPage.inflight s = 1) /\
  match TutorPage.selectedTopic s with
  | Some topic => exists now rest, TutorPage.messages s = TutorPage.greeting topic now :: rest
  | None => TutorPage.messages s = [] /\ TutorPage.inflight s = 0
  end.

(** ** Concrete loads *)

Module Sample.

Definition backend : string := "https://learnmate.example".

Definition ann : value := VObj [("id", VStr "u1"); ("name", VStr "Ann")].

Definition unauthorized : exn := Thrown (VObj [("status", VNum 401)]).

Definition network_error : exn := Thrown (VStr "Network Error").

(** A first visit of [path] with the given query and fragment. *)
Definition visit (path query fragment : string) : History :=
  mkHistory [] (mkLocation path query fragment) [].

(** The world after [/auth/me] has answered with Ann. *)
Definition signed_in : World :=
  mkWorld (mkAppState ann false false) (visit "/" "" "")
    [Request GET (API backend ++ "/auth/me") None] None 0.

(** The world after [/auth/me] has answered 401. *)
Definition signed_out : World :=
  mkWorld (mkAppState VNull false false) (visit "/dashboard" "" "")
    [Request GET (API backend ++ "/auth/me") None] None 0.

End Sample.

Module PageSample.

Definition math : TutorPage.Topic :=
  TutorPage.mkTopic (VNum 1) "Math" (VStr "calculator").

Definition art : TutorPage.Topic :=
  TutorPage.mkTopic (VNum 2) "Art" (VStr "palette").

Definition reply : response :=
  mkResponse (VObj [("chat_id", VStr "c1"); ("response", VStr "Sure.");
                    ("timestamp", VStr "2025-01-01T00:00:01.000Z")]).

(** A topic is selected and a question typed. *)
Definition typed : TutorPage.State :=
  TutorPage.mkState (VObj []) (Some math)
    [TutorPage.greeting math "2025-01-01T00:00:00.000Z"] "What is a prime?" false VNull 0.

(** Ann signs in through the handoff and a logout request of hers fails. *)
Definition after_failed_logout : World :=
  Eval vm_compute in
    match run Sample.backend
            [ResolverSettles (Fulfilled (mkResponse (VObj [("user", Sample.ann)])));
             LogoutCalled; LogoutSettles (Rejected Sample.network_error)]
            (mount Sample.backend (Sample.visit "/tutor" "?ref=mail" "#session_id=xyz"))
    with
    | Some w => w
    | None => initial (Sample.visit "/" "" "")
    end.

(** A question is on its way. *)
Definition asked : TutorPage.State * list notice :=
  Eval vm_compute in
    match TutorPage.acts Sample.backend
            [TutorPage.SelectTopic math "t0"; TutorPage.TypeText "What is a prime?";
             TutorPage.PressKey "Enter" false "t1"]
            (TutorPage.initial, [])
    with
    | Some w => w
    | None => (TutorPage.initial, [])
    end.

(** An anonymous visitor asked for the dashboard and was sent to the
    landing view. *)
Definition bounced : World :=
  Eval vm_compute in
    match live Sample.backend
            [Core (ResolverSettles (Rejected Sample.unauthorized)); Render]
            (mount Sample.backend (Sample.visit "/dashboard" "" ""))
    with
    | Some w => w
    | None => initial (Sample.visit "/" "" "")
    end.

(** A question was asked on Math, Art was selected, the reply came in, and
    a next question is typed. *)
Definition switched : TutorPage.State * list notice :=
  Eval vm_compute in
    match TutorPage.acts Sample.backend
            [TutorPage.ClickSend "t1"; TutorPage.SelectTopic art "t2";
             TutorPage.ChatSettles (Fulfilled reply); TutorPage.TypeText "And a hue?"]
            (typed, [])
    with
    | Some w => w
    | None => (TutorPage.initial, [])
    end.

Definition switched_and_sent : TutorPage.State * list notice :=
  Eval vm_compute in
    match TutorPage.act Sample.backend (TutorPage.ClickSend "t3") switched with
    | Some w => w
    | None => (TutorPage.initial, [])
    end.

End PageSample.

(** * Properties *)

(** ** Strings *)

Local Open Scope string_scope.

Section StringFacts.

Lemma append_empty_r (s : string) : s ++ "" = s.
Proof. induction s as [|c s IH]; simpl; [reflexivity | now rewrite IH]. Qed.

Lemma append_assoc (a b c : string) : (a ++ b) ++ c = a ++ b ++ c.
Proof. induction a as [|x a IH]; simpl; [reflexivity | now rewrite IH]. Qed.

Lemma prefix_empty_l (s : string) : String.prefix "" s = true.
Proof. destruct s; reflexivity. Qed.

Lemma prefix_empty_r (p : string) : p <> "" -> String.prefix p "" = false.
Proof. destruct p; [congruence | reflexivity]. Qed.

Lemma prefix_cons (a b : ascii) (p s : string) :
  String.prefix (String a p) (String b s) = true <-> a = b /\ String.prefix p s = true.
Proof.
  simpl. destruct (ascii_dec a b) as [E|N].
  - tauto.
  - split; [discriminate | tauto].
Qed.

Lemma prefix_append (p t : string) : String.prefix p (p ++ t) = true.
Proof.
  induction p as [|a p IH]; simpl.
  - apply prefix_empty_l.
  - destruct (ascii_dec a a); [exact IH | congruence].
Qed.

Lemma prefix_drop (p s : string) :
  String.prefix p s = true -> s = p ++ drop (String.length p) s.
Proof.
  revert s. induction p as [|a p IH]; intros s H.
  - reflexivity.
  - destruct s as [|b s]; [discriminate|].
    apply prefix_cons in H. destruct H as [-> H].
    simpl. f_equal. now apply IH.
Qed.

Lemma prefix_length (p s : string) :
  String.prefix p s = true -> String.length p <= String.length s.
Proof.
  revert s. induction p as [|a p IH]; intros s H; simpl; [lia|].
  destruct s as [|b s]; [discriminate|].
  apply prefix_cons in H. destruct H as [_ H]. apply IH in H. simpl. lia.
Qed.

Lemma prefix_weaken (p a t : string) :
  String.prefix p a = true -> String.prefix p (a ++ t) = true.
Proof.
  intros H. rewrite (prefix_drop _ _ H), append_assoc. apply prefix_append.
Qed.

Lemma includes_empty (sub : string) : sub <> "" -> includes "" sub = false.
Proof. destruct sub; [congruence | reflexivity]. Qed.

Lemma includes_nil (sub : string) : includes "" sub = String.prefix sub "".
Proof. simpl. apply orb_false_r. Qed.

Lemma includes_cons (c : ascii) (s sub : string) :
  includes (String c s) sub = String.prefix sub (String c s) || includes s sub.
Proof. reflexivity. Qed.

Lemma includes_weaken (a t sub : string) :
  includes a sub = true -> includes (a ++ t) sub = true.
Proof.
  induction a as [|c a IH]; intros H.
  - destruct sub; [|discriminate].
    destruct t; reflexivity.
  - rewrite includes_cons in H. simpl append. rewrite includes_cons.
    apply orb_true_iff in H. apply orb_true_iff. destruct H as [H|H].
    + left. now apply (prefix_weaken _ (String c a)).
    + right. now apply IH.
Qed.

Lemma includes_left_free (a t sub : string) :
  includes (a ++ t) sub = false -> includes a sub = false.
Proof.
  intros H. destruct (includes a sub) eqn:E; [|reflexivity].
  now rewrite (includes_weaken _ t _ E) in H.
Qed.

Lemma includes_iff (s sub : string) :
  includes s sub = true <-> exists a b, s = a ++ sub ++ b.
Proof.
  split.
  - induction s as [|c s IH]; intros H.
    + exists "", "". destruct sub; [reflexivity | discriminate].
    + rewrite includes_cons in H. apply orb_true_iff in H. destruct H as [H|H].
      * exists "", (drop (String.length sub) (String c s)). now apply prefix_drop.
      * destruct (IH H) as (a & b & ->). now exists (String c a), b.
  - intros (a & b & ->). induction a as [|c a IH].
    + simpl append. destruct (sub ++ b) eqn:E.
      * simpl. destruct sub; [reflexivity | discriminate].
      * rewrite includes_cons, <- E, prefix_append. reflexivity.
    + simpl append. rewrite includes_cons, IH. apply orb_true_r.
Qed.

(** *** [before] and [after] cut a string at the first occurrence *)

Lemma before_nil (sep : string) : before sep "" = "".
Proof. unfold before. now destruct (String.prefix sep ""). Qed.

Lemma before_cons (sep : string) (c : ascii) (s : string) :
  before sep (String c s) =
  if String.prefix sep (String c s) then "" else String c (before sep s).
Proof. reflexivity. Qed.

Lemma after_nil (sep : string) :
  after sep "" = if String.prefix sep "" then Some (drop (String.length sep) "") else None.
Proof. reflexivity. Qed.

Lemma after_cons (sep : string) (c : ascii) (s : string) :
  after sep (String c s) =
  if String.prefix sep (String c s)
  then Some (drop (String.length sep) (String c s))
  else after sep s.
Proof. reflexivity. Qed.

Lemma before_after_none (sep s : string) :
  includes s sep = false -> before sep s = s /\ after sep s = None.
Proof.
  induction s as [|c s IH]; intros H.
  - rewrite includes_nil in H. rewrite before_nil, after_nil, H. now split.
  - rewrite includes_cons in H. apply orb_false_iff in H. destruct H as [H1 H2].
    destruct (IH H2) as [Hb Ha].
    rewrite before_cons, after_cons, H1, Hb, Ha. now split.
Qed.

Lemma after_includes (sep s : string) :
  includes s sep = true -> exists rest, after sep s = Some rest.
Proof.
  induction s as [|c s IH]; intros H.
  - rewrite includes_nil in H. rewrite after_nil, H. eauto.
  - rewrite includes_cons in H. rewrite after_cons.
    destruct (String.prefix sep (String c s)) eqn:E; [eauto|].
    now apply IH.
Qed.

Lemma after_decompose (sep s rest : string) :
  after sep s = Some rest -> s = before sep s ++ sep ++ rest.
Proof.
  induction s as [|c s IH]; intros H.
  - rewrite after_nil in H. rewrite before_nil.
    destruct (String.prefix sep "") eqn:E; [|discriminate].
    injection H as <-. now apply prefix_drop in E.
  - rewrite after_cons in H. rewrite before_cons.
    destruct (String.prefix sep (String c s)) eqn:E.
    + injection H as <-. now apply prefix_drop.
    + simpl. f_equal. now apply IH.
Qed.

Lemma before_first (sep s : string) (i : nat) :
  i < String.length (before sep s) -> String.prefix sep (drop i s) = false.
Proof.
  revert i. induction s as [|c s IH]; intros i H.
  - rewrite before_nil in H. simpl in H. lia.
  - rewrite before_cons in H. destruct (String.prefix sep (String c s)) eqn:E.
    + simpl in H. lia.
    + destruct i as [|i]; [exact E|].
      simpl String.length in H. simpl drop. apply IH. lia.
Qed.

Lemma before_tail (sep s : string) :
  exists tail, s = before sep s ++ tail /\ (tail = "" \/ String.prefix sep tail = true).
Proof.
  induction s as [|c s IH].
  - exists "". rewrite before_nil. auto.
  - rewrite before_cons. destruct (String.prefix sep (String c s)) eqn:E.
    + exists (String c s). auto.
    + destruct IH as (tail & Hs & Ht). exists tail.
      split; [simpl; now f_equal | exact Ht].
Qed.

Lemma before_free (sep s : string) : sep <> "" -> includes (before sep s) sep = false.
Proof.
  intros Hsep. induction s as [|c s IH].
  - rewrite before_nil. now apply includes_empty.
  - rewrite before_cons. destruct (String.prefix sep (String c s)) eqn:E.
    + now apply includes_empty.
    + rewrite includes_cons, IH, orb_false_r.
      destruct (String.prefix sep (String c (before sep s))) eqn:P; [|reflexivity].
      destruct (before_tail sep s) as (tail & Hs & _).
      apply (prefix_weaken _ _ tail) in P.
      change (String c (before sep s) ++ tail) with (String c (before sep s ++ tail)) in P.
      rewrite <- Hs in P. congruence.
Qed.

(** *** [split] cuts at the first occurrence and goes on behind it *)

Lemma split_scan_skip (sep s : string) (k : nat) (acc : string) :
  k <= String.length s -> split_scan sep s k acc = split_scan sep (drop k s) 0 acc.
Proof.
  revert k. induction s as [|c s IH]; intros k H.
  - destruct k; [reflexivity | simpl in H; lia].
  - destruct k as [|k]; [reflexivity|].
    simpl in H. simpl. apply IH. lia.
Qed.

Lemma split_scan_unfold (sep s acc : string) :
  sep <> "" ->
  split_scan sep s 0 acc =
  (acc ++ before sep s) ::
  match after sep s with
  | Some rest => split_scan sep rest 0 ""
  | None => []
  end.
Proof.
  intros Hsep. revert acc. induction s as [|c s IH]; intros acc.
  - rewrite before_nil, after_nil, (prefix_empty_r _ Hsep), append_empty_r. reflexivity.
  - rewrite before_cons, after_cons.
    change (split_scan sep (String c s) 0 acc) with
      (if String.prefix sep (String c s)
       then acc :: split_scan sep s (String.length sep - 1) ""
       else split_scan sep s 0 (acc ++ String c "")).
    destruct (String.prefix sep (String c s)) eqn:E.
    + rewrite append_empty_r. f_equal.
      destruct sep as [|a sep]; [congruence|].
      pose proof (prefix_length _ _ E) as L. simpl in L.
      replace (String.length (String a sep) - 1) with (String.length sep)
        by (simpl; lia).
      change (drop (String.length (String a sep)) (String c s))
        with (drop (String.length sep) s).
      apply split_scan_skip. lia.
    + rewrite IH, append_assoc. reflexivity.
Qed.

Lemma split_unfold (sep s : string) :
  sep <> "" ->
  split sep s =
  before sep s ::
  match after sep s with
  | Some rest => split sep rest
  | None => []
  end.
Proof.
  intros Hsep. destruct sep as [|a sep]; [congruence|].
  unfold split. now rewrite split_scan_unfold.
Qed.

End StringFacts.

(** ** The token *)

Section Token.

Lemma guard_is_includes (hash : string) :
  truthy (VStr hash) && includes hash "session_id=" = includes hash "session_id=".
Proof. destruct hash; reflexivity. Qed.

Lemma after_some_includes (sep s rest : string) :
  after sep s = Some rest -> includes s sep = true.
Proof.
  intros H. apply includes_iff. exists (before sep s), rest.
  now apply after_decompose.
Qed.

Lemma sessionId_after (hash rest : string) :
  after "session_id=" hash = Some rest ->
  sessionId hash = inr (VStr (before "&" (before "session_id=" rest))).
Proof.
  intros H. unfold sessionId.
  rewrite (split_unfold "session_id=" hash) by discriminate. rewrite H.
  rewrite (split_unfold "session_id=" rest) by discriminate.
  cbn [nth_error].
  rewrite (split_unfold "&") by discriminate. reflexivity.
Qed.

Lemma sessionId_token (hash : string) :
  includes hash "session_id=" = true -> sessionId hash = inr (VStr (token_of hash)).
Proof.
  intros H. destruct (after_includes _ _ H) as [rest Hr].
  unfold token_of. rewrite Hr. now apply sessionId_after.
Qed.

(** Where the token sits in the fragment. *)
Lemma token_position (hash : string) :
  includes hash "session_id=" = true ->
  exists pre rest tail,
    hash = pre ++ "session_id=" ++ rest /\
    (forall i, i < String.length pre -> String.prefix "session_id=" (drop i hash) = false) /\
    rest = token_of hash ++ tail /\
    includes (token_of hash) "&" = false /\
    includes (token_of hash) "session_id=" = false /\
    (tail = "" \/ String.prefix "&" tail = true \/ String.prefix "session_id=" tail = true).
Proof.
  intros H. destruct (after_includes _ _ H) as [rest Hr].
  unfold token_of. rewrite Hr. cbn [or_empty].
  destruct (before_tail "session_id=" rest) as (t1 & E1 & T1).
  destruct (before_tail "&" (before "session_id=" rest)) as (t2 & E2 & T2).
  exists (before "session_id=" hash), rest, (t2 ++ t1).
  split; [now apply after_decompose|].
  split; [intros i Hi; now apply before_first|].
  split; [rewrite <- append_assoc, <- E2; exact E1|].
  split; [apply before_free; discriminate|].
  split.
  - apply (includes_left_free _ t2). rewrite <- E2. apply before_free. discriminate.
  - destruct T2 as [-> | T2].
    + destruct T1 as [-> | T1]; auto.
    + right. left. now apply prefix_weaken.
Qed.

(** A separator of one character [x] cuts a prefix that holds no [x]
    behind that prefix. *)
Lemma prefix_before_char (x : ascii) (p s : string) :
  String.prefix p s = true ->
  includes p (String x "") = false ->
  String.prefix p (before (String x "") s) = true.
Proof.
  revert s. induction p as [|a p IH]; intros s H F.
  - apply prefix_empty_l.
  - destruct s as [|b s]; [discriminate|].
    apply prefix_cons in H. destruct H as [<- H].
    rewrite includes_cons in F. apply orb_false_iff in F. destruct F as [F1 F2].
    rewrite before_cons.
    replace (String.prefix (String x "") (String a s)) with false.
    + apply prefix_cons. split; [reflexivity | now apply IH].
    + symmetry. destruct (String.prefix (String x "") (String a s)) eqn:E; [|reflexivity].
      apply prefix_cons in E. destruct E as [-> _].
      rewrite <- F1. symmetry. apply prefix_cons. split; [reflexivity | apply prefix_empty_l].
Qed.

(** Cutting at [sep] first makes no difference to the cut at [x] when no
    [sep] shows up in front of the first [x]. *)
Lemma before_char_before (x : ascii) (sep s : string) :
  includes sep (String x "") = false ->
  includes (before (String x "") s) sep = false ->
  before (String x "") (before sep s) = before (String x "") s.
Proof.
  intros Hx. induction s as [|c s IH]; intros F.
  - now rewrite !before_nil.
  - rewrite (before_cons (String x "")) in F |- *.
    destruct (String.prefix (String x "") (String c s)) eqn:E.
    + apply prefix_cons in E. destruct E as [<- _].
      rewrite before_cons.
      destruct (String.prefix sep (String x s)) eqn:P.
      * apply before_nil.
      * rewrite before_cons.
        replace (String.prefix (String x "") (String x (before sep s))) with true; [reflexivity|].
        symmetry. apply prefix_cons. split; [reflexivity | apply prefix_empty_l].
    + rewrite includes_cons in F. apply orb_false_iff in F. destruct F as [F1 F2].
      rewrite before_cons.
      destruct (String.prefix sep (String c s)) eqn:P.
      * apply (prefix_before_char x) in P; [|exact Hx].
        rewrite before_cons, E in P. congruence.
      * rewrite before_cons.
        replace (String.prefix (String x "") (String c (before sep s))) with false.
        -- f_equal. now apply IH.
        -- symmetry.
           destruct (String.prefix (String x "") (String c (before sep s))) eqn:Q; [|reflexivity].
           apply prefix_cons in Q. destruct Q as [-> _].
           rewrite <- E. symmetry. apply prefix_cons. split; [reflexivity | apply prefix_empty_l].
Qed.

Lemma token_of_spec_token (hash : string) :
  includes (spec_token hash) "session_id=" = false -> token_of hash = spec_token hash.
Proof.
  unfold token_of, spec_token. apply (before_char_before "&"%char). reflexivity.
Qed.

End Token.

(** ** The resolver *)

Section Resolver.

Variable BACKEND_URL : string.

Lemma mount_session (h : History) :
  includes (hash (current h)) "session_id=" = true ->
  mount BACKEND_URL h =
  mkWorld (mkAppState VNull true true) h
    [Request POST (API BACKEND_URL ++ "/auth/session")
       (Some (VObj [("session_id", VStr (token_of (hash (current h))))]))]
    (Some SessionPath) 0.
Proof.
  intros H. unfold mount, resolver, bind, window_location, initial. cbn [history].
  rewrite guard_is_includes, H.
  unfold lift. rewrite (sessionId_token _ H). reflexivity.
Qed.

Lemma mount_me (h : History) :
  includes (hash (current h)) "session_id=" = false ->
  mount BACKEND_URL h =
  mkWorld (mkAppState VNull true false) h
    [Request GET (API BACKEND_URL ++ "/auth/me") None] (Some MePath) 0.
Proof.
  intros H. unfold mount, resolver, bind, window_location, initial. cbn [history].
  rewrite guard_is_includes, H. reflexivity.
Qed.

(** The effect runs to its end: under the guard the second piece of the
    split exists, so reading the token does not throw. *)
Lemma resolver_completes (h : History) :
  fst (resolver BACKEND_URL (initial h)) = inr tt.
Proof.
  unfold resolver, bind, window_location, initial. cbn [history].
  rewrite guard_is_includes.
  destruct (includes (hash (current h)) "session_id=") eqn:E; [|reflexivity].
  unfold lift. rewrite (sessionId_token _ E). reflexivity.
Qed.

(** A rooted path resolves to itself, without query and fragment. *)
Lemma resolve_rooted (base : Location) (p : string) :
  rooted p = true -> resolve base p = Some (mkLocation p "" "").
Proof.
  unfold rooted. intros H.
  apply andb_true_iff in H. destruct H as [H H4].
  apply andb_true_iff in H. destruct H as [H H3].
  apply andb_true_iff in H. destruct H as [H1 H2].
  apply negb_true_iff in H2, H3, H4.
  destruct (before_after_none "#" p H4) as [B4 A4].
  destruct (before_after_none "?" p H3) as [B3 A3].
  unfold resolve. rewrite B4, A4, B3, A3, H2, H1. reflexivity.
Qed.

Lemma load_session_ok (h : History) (r : response) (u : value) :
  includes (hash (current h)) "session_id=" = true ->
  rooted (pathname (current h)) = true ->
  get (data r) "user" = inr u ->
  load BACKEND_URL h (Fulfilled r) =
  Some (mkWorld (mkAppState u false false)
          (replaceState (mkLocation (pathname (current h)) "" "") h)
          [Request POST (API BACKEND_URL ++ "/auth/session")
             (Some (VObj [("session_id", VStr (token_of (hash (current h))))]));
           HistoryReplace (pathname (current h))]
          None 0).
Proof.
  intros H R G. unfold load. rewrite (mount_session _ H).
  unfold step. cbn [resolving]. f_equal.
  unfold session_settled, finally, catch, then_, session_then, bind, lift,
    setResolving, update, window_history_replaceState, window_location.
  cbn. rewrite G. cbn. rewrite (resolve_rooted _ _ R). reflexivity.
Qed.

Lemma load_session_throws (h : History) (r : response) (e : exn) :
  includes (hash (current h)) "session_id=" = true ->
  get (data r) "user" = inl e ->
  load BACKEND_URL h (Fulfilled r) =
  Some (mkWorld (mkAppState VNull false false) h
          [Request POST (API BACKEND_URL ++ "/auth/session")
             (Some (VObj [("session_id", VStr (token_of (hash (current h))))]));
           ConsoleError "Session processing failed:" e]
          None 0).
Proof.
  intros H G. unfold load. rewrite (mount_session _ H).
  unfold step. cbn [resolving]. f_equal.
  unfold session_settled, finally, catch, then_, session_then, bind, lift,
    setResolving, update.
  cbn. rewrite G. reflexivity.
Qed.

Lemma load_session_rejected (h : History) (e : exn) :
  includes (hash (current h)) "session_id=" = true ->
  load BACKEND_URL h (Rejected e) =
  Some (mkWorld (mkAppState VNull false false) h
          [Request POST (API BACKEND_URL ++ "/auth/session")
             (Some (VObj [("session_id", VStr (token_of (hash (current h))))]));
           ConsoleError "Session processing failed:" e]
          None 0).
Proof.
  intros H. unfold load. rewrite (mount_session _ H). reflexivity.
Qed.

Lemma load_me_ok (h : History) (r : response) :
  includes (hash (current h)) "session_id=" = false ->
  load BACKEND_URL h (Fulfilled r) =
  Some (mkWorld (mkAppState (data r) false false) h
          [Request GET (API BACKEND_URL ++ "/auth/me") None] None 0).
Proof.
  intros H. unfold load. rewrite (mount_me _ H). reflexivity.
Qed.

Lemma load_me_rejected (h : History) (e : exn) :
  includes (hash (current h)) "session_id=" = false ->
  load BACKEND_URL h (Rejected e) =
  Some (mkWorld (mkAppState VNull false false) h
          [Request GET (API BACKEND_URL ++ "/auth/me") None] None 0).
Proof.
  intros H. unfold load. rewrite (mount_me _ H). reflexivity.
Qed.

Lemma get_nullish (v : value) (k : string) :
  nullish v = false -> exists u, get v k = inr u.
Proof.
  destruct v; try discriminate; intros _; simpl; eauto.
  destruct (assoc k fields); eauto.
Qed.

Lemma get_throws (v : value) (k : string) :
  nullish v = true -> exists e, get v k = inl e.
Proof. destruct v; try discriminate; intros _; simpl; eauto. Qed.

End Resolver.

(** ** Operations on a mounted shell *)

(** Runs a promise chain symbolically, down to the cases of its inputs. *)
Ltac chain :=
  unfold session_settled, me_settled, logout, logout_call, logout_resume,
    session_then, session_catch, session_finally, me_then, me_catch, me_finally,
    window_history_replaceState, window_location, console_error, axios_post,
    axios_get, setUser, setLoading, setProcessingAuth, setResolving, setLogouts,
    setApp, emit, update, finally, catch, then_, bind, lift, throw, ret;
  cbn.

Section Operations.

Variable BACKEND_URL : string.

Lemma append_cancel_l (a x y : string) : a ++ x = a ++ y -> x = y.
Proof.
  induction a as [|c a IH]; simpl; intros H; [exact H|].
  injection H as H. now apply IH.
Qed.

Lemma logout_is_no_resolution_call (body : option value) :
  resolution_call BACKEND_URL (Request POST (API BACKEND_URL ++ "/auth/logout") body) = false.
Proof.
  unfold resolution_call, is_request. rewrite orb_false_r.
  apply String.eqb_neq. intros H. apply append_cancel_l in H. discriminate.
Qed.

(** Every operation only adds to the log, and what it adds is no
    resolution request. *)
Lemma step_log (o : op) (w w' : World) :
  step BACKEND_URL o w = Some w' ->
  exists extra, log w' = (log w ++ extra)%list /\
                existsb (resolution_call BACKEND_URL) extra = false.
Proof.
  destruct o as [p | | p]; unfold step.
  - destruct (resolving w) as [[|]|]; [| |discriminate]; intros H; injection H as <-.
    + destruct p as [r|e]; chain.
      * destruct (get (data r) "user") as [e|u]; cbn.
        -- exists [ConsoleError "Session processing failed:" e]. now split.
        -- destruct (resolve (current (history w)) (pathname (current (history w)))); cbn.
           ++ exists [HistoryReplace (pathname (current (history w)))]. now split.
           ++ eexists [ConsoleError "Session processing failed:" _]. now split.
      * exists [ConsoleError "Session processing failed:" e]. now split.
    + destruct p as [r|e]; chain; exists []; now rewrite app_nil_r.
  - destruct (pending (app w)); [discriminate|]. intros H; injection H as <-. chain.
    exists [Request POST (API BACKEND_URL ++ "/auth/logout") None]. split; [reflexivity|].
    cbn [existsb]. now rewrite logout_is_no_resolution_call.
  - destruct (logouts w); [discriminate|]. intros H; injection H as <-.
    destruct p as [r|e]; chain.
    + exists []. now rewrite app_nil_r.
    + exists [ConsoleError "Logout failed:" e]. now split.
Qed.

Lemma step_consistent (o : op) (w w' : World) :
  consistent w -> step BACKEND_URL o w = Some w' -> consistent w'.
Proof.
  unfold consistent. destruct o as [p | | p]; unfold step.
  - destruct (resolving w) as [[|]|]; [| |discriminate]; intros C H; injection H as <-.
    + destruct p as [r|e]; chain; [|now split].
      destruct (get (data r) "user") as [e|u]; cbn; [now split|].
      destruct (resolve (current (history w)) (pathname (current (history w)))); now split.
    + destruct C as [_ C]. destruct p as [r|e]; chain; now split.
  - destruct (pending (app w)); [discriminate|]. intros C H; injection H as <-. exact C.
  - destruct (logouts w); [discriminate|]. intros C H; injection H as <-.
    destruct p as [r|e]; chain; exact C.
Qed.

Lemma mount_consistent (h : History) : consistent (mount BACKEND_URL h).
Proof.
  destruct (includes (hash (current h)) "session_id=") eqn:E.
  - rewrite (mount_session _ _ E). reflexivity.
  - rewrite (mount_me _ _ E). now split.
Qed.

Lemma run_app (ops more : list op) (w : World) :
  run BACKEND_URL (ops ++ more)%list w =
  match run BACKEND_URL ops w with
  | Some w' => run BACKEND_URL more w'
  | None => None
  end.
Proof.
  revert w. induction ops as [|o ops IH]; intros w; simpl; [reflexivity|].
  destruct (step BACKEND_URL o w); [apply IH | reflexivity].
Qed.

Lemma run_consistent (ops : list op) (w w' : World) :
  consistent w -> run BACKEND_URL ops w = Some w' -> consistent w'.
Proof.
  revert w. induction ops as [|o ops IH]; intros w C H; simpl in H.
  - now injection H as <-.
  - destruct (step BACKEND_URL o w) as [w1|] eqn:E; [|discriminate].
    eapply IH; [|exact H]. eapply step_consistent; eassumption.
Qed.

Lemma reachable_consistent (h : History) (w : World) :
  reachable BACKEND_URL h w -> consistent w.
Proof.
  intros [ops H]. eapply run_consistent; [apply mount_consistent | exact H].
Qed.

Lemma run_log (ops : list op) (w w' : World) :
  run BACKEND_URL ops w = Some w' ->
  exists extra, log w' = (log w ++ extra)%list /\
                existsb (resolution_call BACKEND_URL) extra = false.
Proof.
  revert w. induction ops as [|o ops IH]; intros w H; simpl in H.
  - injection H as <-. exists []. now rewrite app_nil_r.
  - destruct (step BACKEND_URL o w) as [w1|] eqn:E; [|discriminate].
    destruct (step_log _ _ _ E) as (x1 & L1 & Q1).
    destruct (IH _ H) as (x2 & L2 & Q2).
    exists (x1 ++ x2)%list. split.
    + now rewrite L2, L1, <- app_assoc.
    + now rewrite existsb_app, Q1, Q2.
Qed.

(** How one operation moves the phase. *)
Lemma step_phase (o : op) (w w' : World) :
  consistent w -> step BACKEND_URL o w = Some w' ->
  phase_of (app w') = phase_of (app w)
  \/ (phase_of (app w) = PENDING /\ phase_of (app w') <> PENDING /\
      exists p, o = ResolverSettles p)
  \/ (phase_of (app w) = AUTHENTICATED /\ phase_of (app w') = ANONYMOUS /\
      exists r, o = LogoutSettles (Fulfilled r)).
Proof.
  intros C H. pose proof (step_consistent _ _ _ C H) as C'.
  destruct o as [p | | p]; unfold step in H.
  - right. left. unfold consistent in C, C'.
    destruct (resolving w) as [[|]|] eqn:R; [| |discriminate].
    + assert (resolving w' = None) as R'.
      { injection H as <-. destruct p as [r|e]; chain; [|reflexivity].
        destruct (get (data r) "user") as [e|u]; cbn; [reflexivity|].
        destruct (resolve (current (history w)) (pathname (current (history w)))); reflexivity. }
      rewrite R' in C'. destruct C' as [C1 C2].
      unfold phase_of, pending. rewrite C, C1, C2. cbn.
      split; [reflexivity|]. split; [destruct (truthy (user (app w'))); discriminate | eauto].
    + assert (resolving w' = None) as R'.
      { injection H as <-. destruct p as [r|e]; reflexivity. }
      rewrite R' in C'. destruct C' as [C1 C2]. destruct C as [C _].
      unfold phase_of, pending. rewrite C, C1, C2. cbn.
      split; [reflexivity|]. split; [destruct (truthy (user (app w'))); discriminate | eauto].
  - left. destruct (pending (app w)); [discriminate|]. now injection H as <-.
  - destruct (logouts w); [discriminate|]. injection H as <-.
    destruct p as [r|e]; [|now left].
    chain. unfold phase_of, pending. cbn.
    destruct (loading (app w) || processingAuth (app w)); [now left|].
    destruct (truthy (user (app w))); [|now left].
    right. right. eauto.
Qed.

End Operations.

(** ** The route guard *)

Section Guard.

Lemma resolve_home (base : Location) : resolve base "/" = Some home.
Proof. reflexivity. Qed.

Lemma lower_clash (a b c : ascii) :
  Ascii.eqb (lower a) (lower c) = true -> Ascii.eqb (lower b) (lower c) = true ->
  lower a = lower b.
Proof.
  intros A B. apply Ascii.eqb_eq in A, B. congruence.
Qed.

(** A path that matches a route of more than one character matches
    neither [/] nor a route that differs in the second character. *)
Lemma route_match_second (r1 r2 : ascii) (route1 route2 path : string) :
  lower r1 <> lower r2 ->
  route_match (String "/" (String r1 route1)) path = true ->
  route_match (String "/" (String r2 route2)) path = false.
Proof.
  intros N H. destruct path as [|c0 [|c path]]; try reflexivity.
  - cbn in H. now rewrite andb_false_r in H.
  - cbn [route_match] in *.
    apply andb_true_iff in H. destruct H as [_ H].
    apply andb_true_iff in H. destruct H as [H _].
    destruct (Ascii.eqb (lower r2) (lower c)) eqn:E.
    + destruct N. exact (lower_clash _ _ _ H E).
    + now rewrite andb_false_r.
Qed.

Lemma route_match_not_root (r : ascii) (route path : string) :
  lower r <> "/"%char ->
  route_match (String "/" (String r route)) path = true ->
  route_match "/" path = false.
Proof.
  intros N H. destruct path as [|c0 [|c path]]; try reflexivity.
  - cbn in H. now rewrite andb_false_r in H.
  - cbn [route_match all_slashes] in *.
    apply andb_true_iff in H. destruct H as [_ H].
    apply andb_true_iff in H. destruct H as [H _].
    destruct (Ascii.eqb c "/") eqn:E.
    + apply Ascii.eqb_eq in E. subst c. apply Ascii.eqb_eq in H.
      destruct N. exact H.
    + cbn. now rewrite andb_false_r.
Qed.

Lemma App_resolved (s : AppState) (path : string) :
  pending s = false -> protected path = true ->
  App s path = if truthy (user s) then Show (page_at path) else Navigate "/" true.
Proof.
  assert (forall a b : ascii, Ascii.eqb (lower a) (lower b) = false -> lower a <> lower b) as Ne.
  { intros a b E. now apply Ascii.eqb_neq. }
  unfold pending, App, protected, page_at. intros P H. rewrite P.
  apply orb_true_iff in H. destruct H as [H|H].
  - rewrite (route_match_not_root "t" "utor" path (Ne "t" "/" eq_refl) H)%char.
    rewrite (route_match_second "t" "f" "utor" "eatures" path (Ne "t" "f" eq_refl) H)%char.
    rewrite H. reflexivity.
  - rewrite (route_match_not_root "d" "ashboard" path (Ne "d" "/" eq_refl) H)%char.
    rewrite (route_match_second "d" "f" "ashboard" "eatures" path (Ne "d" "f" eq_refl) H)%char.
    rewrite (route_match_second "d" "t" "ashboard" "utor" path (Ne "d" "t" eq_refl) H)%char.
    rewrite H. reflexivity.
Qed.

Lemma App_home (s : AppState) : pending s = false -> App s "/" = Show Home.
Proof. unfold pending, App. now intros ->. Qed.

Lemma request_anonymous (fuel : nat) (s : AppState) (path : string) (h : History) :
  pending s = false -> truthy (user s) = false -> protected path = true ->
  2 <= fuel ->
  request fuel s path h = Some (pushState home h, [Navigate "/" true; Show Home]).
Proof.
  intros P U H F.
  destruct fuel as [|[|fuel]]; [lia | lia |].
  unfold request. cbn [present pushState current pathname].
  rewrite (App_resolved _ _ P H), U.
  unfold navigate. rewrite resolve_home.
  cbn [replaceState current behind ahead home pathname].
  rewrite (App_home _ P). reflexivity.
Qed.

Lemma requests_anonymous (fuel : nat) (s : AppState) (paths : list string) (h : History) :
  pending s = false -> truthy (user s) = false -> forallb protected paths = true ->
  2 <= fuel ->
  requests fuel s paths h =
  Some (fold_left (fun acc _ => pushState home acc) paths h,
        flat_map (fun _ => [Navigate "/" true; Show Home]) paths).
Proof.
  intros P U H F. revert h. induction paths as [|path paths IH]; intros h.
  - reflexivity.
  - cbn [forallb] in H. apply andb_true_iff in H. destruct H as [H1 H2].
    cbn [requests]. rewrite (request_anonymous _ _ _ _ P U H1 F), (IH H2).
    reflexivity.
Qed.

Lemma redirects_show_home (paths : list string) (pg : page) :
  In (Show pg) (flat_map (fun _ : string => [Navigate "/" true; Show Home]) paths) ->
  pg = Home.
Proof.
  induction paths as [|path paths IH]; cbn; [tauto|].
  intros [H | [H | H]]; [discriminate | congruence | now apply IH].
Qed.

Lemma entries_pushed_home (paths : list string) (h : History) (l : Location) :
  In l (entries (fold_left (fun acc _ => pushState home acc) paths h)) ->
  In l (entries h) \/ l = home.
Proof.
  revert h. induction paths as [|path paths IH]; intros h H; cbn in H; [now left|].
  apply IH in H. destruct H as [H | H]; [|now right].
  unfold entries, pushState in H. cbn in H.
  apply in_app_or in H. destruct H as [H | [H | []]]; [|now right].
  left. unfold entries. apply in_or_app.
  apply in_app_or in H. destruct H as [H | [H | []]]; [now left | right; now left].
Qed.

Lemma App_navigate_inv (s : AppState) (path to : string) (replace : bool) :
  App s path = Navigate to replace ->
  to = "/" /\ replace = true /\ pending s = false /\ truthy (user s) = false.
Proof.
  unfold App, pending.
  destruct (loading s || processingAuth s); [discriminate|].
  destruct (route_match "/" path); [discriminate|].
  destruct (route_match "/features" path); [discriminate|].
  destruct (route_match "/tutor" path).
  - destruct (truthy (user s)); [discriminate|]. intros E. injection E as <- <-. auto.
  - destruct (route_match "/dashboard" path); [|discriminate].
    destruct (truthy (user s)); [discriminate|]. intros E. injection E as <- <-. auto.
Qed.

Lemma App_public (s : AppState) (path : string) :
  pending s = false ->
  (route_match "/" path = true -> App s path = Show Home) /\
  (route_match "/features" path = true -> App s path = Show Features).
Proof.
  assert (forall a b : ascii, Ascii.eqb (lower a) (lower b) = false -> lower a <> lower b) as Ne.
  { intros a b E. now apply Ascii.eqb_neq. }
  unfold pending, App. intros P. rewrite P. split; intros H.
  - now rewrite H.
  - rewrite (route_match_not_root "f" "eatures" path (Ne "f" "/" eq_refl) H)%char.
    now rewrite H.
Qed.

(** One render: the history stays, or a visitor without identity is sent
    to the landing view. *)
Lemma present_two (s : AppState) (h : History) :
  (present 2 s h = Some (h, [App s (pathname (current h))]) /\
   forall to replace, App s (pathname (current h)) <> Navigate to replace) \/
  (present 2 s h = Some (replaceState home h, [Navigate "/" true; Show Home]) /\
   App s (pathname (current h)) = Navigate "/" true /\
   pending s = false /\ truthy (user s) = false).
Proof.
  cbn [present].
  destruct (App s (pathname (current h))) as [ | pg | to replace | ] eqn:E;
    try (left; split; [reflexivity | discriminate]).
  right. destruct (App_navigate_inv _ _ _ _ E) as (-> & -> & P & U).
  unfold navigate. rewrite resolve_home. cbn [replaceState current pathname home].
  rewrite (App_home _ P). repeat split; assumption.
Qed.

Lemma with_history_same (w : World) : with_history (history w) w = w.
Proof. now destruct w. Qed.

Lemma render_cases (w : World) :
  (render w = Some w /\
   forall to replace, App (app w) (pathname (current (history w))) <> Navigate to replace) \/
  (render w = Some (with_history (replaceState home (history w)) w) /\
   App (app w) (pathname (current (history w))) = Navigate "/" true /\
   pending (app w) = false /\ truthy (user (app w)) = false).
Proof.
  unfold render.
  destruct (present_two (app w) (history w)) as [[E N] | (E & A & P & U)]; rewrite E.
  - left. now rewrite with_history_same.
  - right. repeat split; assumption.
Qed.

End Guard.

(** ** What the shell guarantees *)

Section Guarantees.

Variable BACKEND_URL : string.

Lemma load_total (h : History) (p : settled response) :
  exists w, load BACKEND_URL h p = Some w.
Proof.
  unfold load, step.
  destruct (includes (hash (current h)) "session_id=") eqn:E.
  - rewrite (mount_session _ _ E). cbn [resolving]. eauto.
  - rewrite (mount_me _ _ E). cbn [resolving]. eauto.
Qed.

Lemma calls_app (m : method) (url : string) (l extra : list event) :
  calls m url (l ++ extra)%list = calls m url l + calls m url extra.
Proof. unfold calls. now rewrite filter_app, length_app. Qed.

Lemma calls_quiet (extra : list event) :
  existsb (resolution_call BACKEND_URL) extra = false ->
  calls POST (API BACKEND_URL ++ "/auth/session") extra = 0 /\
  calls GET (API BACKEND_URL ++ "/auth/me") extra = 0.
Proof.
  induction extra as [|e extra IH]; intros H; [now split|].
  cbn [existsb] in H. apply orb_false_iff in H. destruct H as [H1 H2].
  unfold resolution_call in H1. apply orb_false_iff in H1. destruct H1 as [Hs Hm].
  destruct (IH H2) as [IHs IHm].
  unfold calls in *. cbn [filter]. now rewrite Hs, Hm.
Qed.

(** [logout] called and settled with nothing in between is the two
    operations one after the other. *)
Lemma logout_as_operations (p : settled response) (w : World) :
  pending (app w) = false ->
  run BACKEND_URL [LogoutCalled; LogoutSettles p] w = Some (snd (logout BACKEND_URL p w)).
Proof.
  intros P. cbn [run step]. rewrite P.
  destruct p as [r|e]; reflexivity.
Qed.

(** C1, amended.  [logout] always completes.  When the backend request
    succeeded, the stored identity is null afterwards.  When it was
    rejected, the failure is written to the console and the stored identity
    is what it was before the call. *)
Theorem logout_clears_identity_when_request_succeeds
  (p : settled response) (w : World) :
  fst (logout BACKEND_URL p w) = inr tt /\
  user (app (snd (logout BACKEND_URL p w))) =
    match p with
    | Fulfilled _ => VNull
    | Rejected _ => user (app w)
    end /\
  log (snd (logout BACKEND_URL p w)) =
    (log w ++
     Request POST (API BACKEND_URL ++ "/auth/logout") None ::
     match p with
     | Fulfilled _ => []
     | Rejected e => [ConsoleError "Logout failed:" e]
     end)%list.
Proof.
  destruct p as [r|e]; chain.
  - repeat split.
  - repeat split. now rewrite <- app_assoc.
Qed.

(** C2, amended.  For every load whose fragment contains [session_id=],
    the resolution settles and the view is rendered.  When the session
    request succeeded with a body that is not null, and the pathname is
    rooted (one slash in front, no [?] and no [#], as the browser reports
    it for the routes), the current history entry is replaced by the path
    alone: the fragment is gone, no entry is added, and it is still gone
    after the render.  When the request failed, or its body was null, the
    promise chain leaves the history as it was: on the public views [/]
    and [/features] the fragment is still there after the render; on a
    guarded view the guard's redirect then replaces the entry by [/],
    without fragment. *)
Theorem fragment_stripped_when_session_established
  (h : History) (p : settled response) :
  includes (hash (current h)) "session_id=" = true ->
  exists w w',
    load BACKEND_URL h p = Some w /\
    render w = Some w' /\
    (succeeded p = true ->
     rooted (pathname (current h)) = true ->
     history w = replaceState (mkLocation (pathname (current h)) "" "") h /\
     In (HistoryReplace (pathname (current h))) (log w) /\
     hash (current (history w')) = "" /\
     behind (history w') = behind h /\ ahead (history w') = ahead h) /\
    (succeeded p = false ->
     history w = h /\
     (forall url, ~ In (HistoryReplace url) (log w)) /\
     (route_match "/" (pathname (current h))
      || route_match "/features" (pathname (current h)) = true ->
      history w' = h /\
      includes (hash (current (history w'))) "session_id=" = true) /\
     (protected (pathname (current h)) = true ->
      history w' = replaceState home h /\
      hash (current (history w')) = "")).
Proof.
  intros H.
  assert (forall e,
            exists w w',
              Some (mkWorld (mkAppState VNull false false) h
                      [Request POST (API BACKEND_URL ++ "/auth/session")
                         (Some (VObj [("session_id", VStr (token_of (hash (current h))))]));
                       ConsoleError "Session processing failed:" e] None 0) = Some w /\
              render w = Some w' /\
              history w = h /\
              (forall url, ~ In (HistoryReplace url) (log w)) /\
              (route_match "/" (pathname (current h))
               || route_match "/features" (pathname (current h)) = true ->
               history w' = h /\
               includes (hash (current (history w'))) "session_id=" = true) /\
              (protected (pathname (current h)) = true ->
               history w' = replaceState home h /\
               hash (current (history w')) = "")) as Failed.
  { intros e. eexists.
    match goal with |- exists w', Some ?w = _ /\ _ => destruct (render_cases w) as [[R N] | (R & A & _)] end.
    - eexists. split; [reflexivity|]. split; [exact R|]. split; [reflexivity|].
      split; [intros url [E | [E | []]]; discriminate|]. split.
      + intros _. now split.
      + intros G. cbn [app history] in N.
        rewrite (App_resolved (mkAppState VNull false false) _ eq_refl G) in N.
        now destruct (N "/" true).
    - eexists. split; [reflexivity|]. split; [exact R|]. split; [reflexivity|].
      split; [intros url [E | [E | []]]; discriminate|]. split.
      + intros G. cbn [app history] in A. apply orb_true_iff in G.
        destruct (App_public (mkAppState VNull false false) (pathname (current h)) eq_refl)
          as [Hm Ft].
        destruct G as [G|G]; [rewrite (Hm G) in A | rewrite (Ft G) in A]; discriminate.
      + intros _. now split. }
  destruct p as [r|e]; cbn [succeeded].
  - destruct (nullish (data r)) eqn:N; cbn [negb].
    + destruct (get_throws _ "user" N) as [e G].
      rewrite (load_session_throws _ _ _ _ H G).
      destruct (Failed e) as (w & w' & L & R & K).
      exists w, w'. split; [exact L|]. split; [exact R|]. split; [discriminate|].
      intros _. exact K.
    + destruct (get_nullish _ "user" N) as [u G].
      destruct (rooted (pathname (current h))) eqn:Rt.
      * rewrite (load_session_ok _ _ _ _ H Rt G). eexists.
        match goal with |- exists w', Some ?w = _ /\ _ => destruct (render_cases w) as [[R _] | (R & _)] end.
        -- eexists. split; [reflexivity|]. split; [exact R|]. split; [|discriminate].
           intros _ _. cbn. repeat split. right. now left.
        -- eexists. split; [reflexivity|]. split; [exact R|]. split; [|discriminate].
           intros _ _. cbn. repeat split. right. now left.
      * destruct (load_total h (Fulfilled r)) as [w L].
        destruct (render_cases w) as [[R _] | (R & _)];
          (eexists w, _; split; [exact L|]; split; [exact R|];
           split; [intros _ E; discriminate | discriminate]).
  - rewrite (load_session_rejected _ _ _ H).
    destruct (Failed e) as (w & w' & L & R & K).
    exists w, w'. split; [exact L|]. split; [exact R|]. split; [discriminate|].
    intros _. exact K.
Qed.

(** C3.  In every component state that occurs before the session
    resolution has settled, both flags taken together say pending, and
    [App] returns the loading screen for whatever path is requested:
    neither a page nor a redirect. *)
Theorem loading_screen_while_pending (h : History) (s : AppState) (path : string) :
  unsettled BACKEND_URL h s ->
  phase_of s = PENDING /\ App s path = LoadingScreen.
Proof.
  intros U.
  assert (loading s = true) as L.
  { destruct U as [| ops w Hrun Hres | p Hres | p Hres].
    - reflexivity.
    - assert (consistent w) as C by (apply (reachable_consistent BACKEND_URL h); now exists ops).
      unfold consistent in C. destruct (resolving w) as [[|]|]; [exact C | apply C | congruence].
    - pose proof (mount_consistent BACKEND_URL h) as C. unfold consistent in C.
      rewrite Hres in C.
      destruct p as [r|e]; chain; [|exact C].
      destruct (get (data r) "user") as [e|u]; cbn; [exact C|].
      destruct (resolve _ _); exact C.
    - pose proof (mount_consistent BACKEND_URL h) as C. unfold consistent in C.
      rewrite Hres in C. destruct C as [C _].
      destruct p as [r|e]; chain; exact C. }
  unfold phase_of, pending, App. rewrite L. now split.
Qed.

(** C4.  Once the resolution has settled without an identity, every
    request of [/tutor] or [/dashboard] ends on the landing view: [App]
    answers with a redirect to [/] that replaces the history entry of the
    request, so that going back leads to the entry the request came from;
    the only page shown is the landing page, and the history gains nothing
    but entries of the landing view, however many requests are made.  With
    an identity, [App] shows the requested page. *)
Theorem guard_redirects_anonymous_visitors
  (s : AppState) (fuel : nat) (paths : list string) (h : History) :
  2 <= fuel ->
  forallb protected paths = true ->
  (phase_of s = ANONYMOUS ->
     (forall path, In path paths -> App s path = Navigate "/" true) /\
     requests fuel s paths h =
       Some (fold_left (fun acc _ => pushState home acc) paths h,
             flat_map (fun _ => [Navigate "/" true; Show Home]) paths) /\
     (forall path, In path paths ->
        request fuel s path h = Some (pushState home h, [Navigate "/" true; Show Home]) /\
        current (back (pushState home h)) = current h) /\
     (forall pg,
        In (Show pg) (flat_map (fun _ : string => [Navigate "/" true; Show Home]) paths) ->
        pg = Home) /\
     (forall l,
        In l (entries (fold_left (fun acc _ => pushState home acc) paths h)) ->
        In l (entries h) \/ l = home)) /\
  (phase_of s = AUTHENTICATED ->
     forall path, In path paths -> App s path = Show (page_at path)).
Proof.
  intros F H. unfold phase_of. split; intros Ph.
  - destruct (pending s) eqn:P; [discriminate|].
    destruct (truthy (user s)) eqn:U; [discriminate|].
    split.
    + intros path Hin. rewrite forallb_forall in H.
      rewrite (App_resolved _ _ P (H _ Hin)), U. reflexivity.
    + split; [apply (requests_anonymous _ _ _ _ P U H F)|]. split; [|split].
      * intros path Hin. rewrite forallb_forall in H.
        split; [apply (request_anonymous _ _ _ _ P U (H _ Hin) F) | reflexivity].
      * apply redirects_show_home.
      * apply entries_pushed_home.
  - destruct (pending s) eqn:P; [discriminate|].
    destruct (truthy (user s)) eqn:U; [|discriminate].
    intros path Hin. rewrite forallb_forall in H.
    rewrite (App_resolved _ _ P (H _ Hin)), U. reflexivity.
Qed.

(** C5.  Every load settles, and over the whole life of the page exactly
    one resolution request is made, picked by the fragment alone: one
    POST to [/auth/session] and no GET of [/auth/me] when the fragment
    contains [session_id=], one GET of [/auth/me] and no POST to
    [/auth/session] when it does not. *)
Theorem one_resolution_path_per_load (h : History) (p : settled response) :
  exists w,
    load BACKEND_URL h p = Some w /\
    forall more w',
      run BACKEND_URL more w = Some w' ->
      if includes (hash (current h)) "session_id=" then
        calls POST (API BACKEND_URL ++ "/auth/session") (log w') = 1 /\
        calls GET (API BACKEND_URL ++ "/auth/me") (log w') = 0
      else
        calls GET (API BACKEND_URL ++ "/auth/me") (log w') = 1 /\
        calls POST (API BACKEND_URL ++ "/auth/session") (log w') = 0.
Proof.
  destruct (load_total h p) as [w Hw]. exists w. split; [exact Hw|].
  intros more w' Hrun.
  assert (run BACKEND_URL (ResolverSettles p :: more) (mount BACKEND_URL h) = Some w') as Hall.
  { cbn [run]. unfold load in Hw. now rewrite Hw. }
  destruct (run_log _ _ _ _ Hall) as (extra & L & Q).
  destruct (calls_quiet _ Q) as [Qs Qm].
  rewrite L, !calls_app, Qs, Qm.
  destruct (includes (hash (current h)) "session_id=") eqn:E.
  - rewrite (mount_session _ _ E). unfold calls. cbn. now rewrite String.eqb_refl.
  - rewrite (mount_me _ _ E). unfold calls. cbn. now rewrite String.eqb_refl.
Qed.

(** C6, amended.  For a fragment that contains [session_id=] the
    extraction yields the text that starts right behind the first
    [session_id=] and ends in front of the next [&], in front of the next
    [session_id=], or at the end of the string, whichever comes first; it
    is the substring up to the next [&] or the end of the string whenever
    that substring holds no further [session_id=].  For
    [#session_id=abc123&foo=bar] the token is [abc123]. *)
Theorem token_extraction :
  (forall hash,
     includes hash "session_id=" = true ->
     sessionId hash = inr (VStr (token_of hash)) /\
     (exists pre rest tail,
        hash = pre ++ "session_id=" ++ rest /\
        (forall i, i < String.length pre ->
                   String.prefix "session_id=" (drop i hash) = false) /\
        rest = token_of hash ++ tail /\
        includes (token_of hash) "&" = false /\
        includes (token_of hash) "session_id=" = false /\
        (tail = "" \/ String.prefix "&" tail = true \/
         String.prefix "session_id=" tail = true)) /\
     (includes (spec_token hash) "session_id=" = false ->
      token_of hash = spec_token hash)) /\
  sessionId "#session_id=abc123&foo=bar" = inr (VStr "abc123").
Proof.
  split; [|reflexivity].
  intros hash H. split; [now apply sessionId_token|].
  split; [now apply token_position | apply token_of_spec_token].
Qed.

(** C7.  For every load without [session_id=] in the fragment whose
    [/auth/me] request is rejected, for whatever reason, the load settles
    with a null identity and the phase anonymous; nothing is written to
    the console, no event besides the request itself is produced, and the
    history is untouched. *)
Theorem failed_me_resolves_to_anonymous_silently (h : History) (e : exn) :
  includes (hash (current h)) "session_id=" = false ->
  exists w,
    load BACKEND_URL h (Rejected e) = Some w /\
    user (app w) = VNull /\
    phase_of (app w) = ANONYMOUS /\
    log w = [Request GET (API BACKEND_URL ++ "/auth/me") None] /\
    filter is_console_error (log w) = [] /\
    history w = h.
Proof.
  intros H. rewrite (load_me_rejected _ _ _ H). eexists. split; [reflexivity|].
  repeat split.
Qed.

(** C8.  In a world of a page load, one operation either leaves the phase
    as it is, or takes it from pending to a resolved phase when the
    resolver's request settles, or from authenticated to anonymous when a
    logout request succeeds.  So once the phase is anonymous it stays
    anonymous under every run of operations. *)
Theorem anonymous_is_terminal (h : History) (ops : list op) (w : World) :
  run BACKEND_URL ops (mount BACKEND_URL h) = Some w ->
  (forall o w',
     step BACKEND_URL o w = Some w' ->
     phase_of (app w') = phase_of (app w)
     \/ (phase_of (app w) = PENDING /\ phase_of (app w') <> PENDING /\
         exists p, o = ResolverSettles p)
     \/ (phase_of (app w) = AUTHENTICATED /\ phase_of (app w') = ANONYMOUS /\
         exists r, o = LogoutSettles (Fulfilled r))) /\
  (phase_of (app w) = ANONYMOUS ->
   forall more w',
     run BACKEND_URL more w = Some w' -> phase_of (app w') = ANONYMOUS).
Proof.
  intros Hrun.
  assert (consistent w) as C
    by (apply (reachable_consistent BACKEND_URL h); now exists ops).
  split.
  - intros o w'. now apply step_phase.
  - clear Hrun. intros A more. revert w C A.
    induction more as [|o more IH]; intros w C A w' H; cbn [run] in H.
    + now injection H as <-.
    + destruct (step BACKEND_URL o w) as [w1|] eqn:E; [|discriminate].
      apply (IH w1); [eapply step_consistent; eassumption | | exact H].
      destruct (step_phase _ _ _ _ C E) as [S | [(S & _) | (S & _)]]; congruence.
Qed.

(** C9.  Whenever the fragment contains [session_id=], wherever it stands,
    the resolver takes the session path and posts the text that follows
    the first occurrence, up to the token's end, as [session_id].  The
    fragment [#other_session_id=t] contains it and yields the token [t];
    the fragment [#session_id=] makes the resolver post the empty
    string. *)
Theorem fragment_detection_is_a_substring_test :
  (forall h,
     includes (hash (current h)) "session_id=" = true ->
     mount BACKEND_URL h =
       mkWorld (mkAppState VNull true true) h
         [Request POST (API BACKEND_URL ++ "/auth/session")
            (Some (VObj [("session_id", VStr (token_of (hash (current h))))]))]
         (Some SessionPath) 0 /\
     exists pre rest tail,
       hash (current h) = pre ++ "session_id=" ++ rest /\
       (forall i, i < String.length pre ->
                  String.prefix "session_id=" (drop i (hash (current h))) = false) /\
       rest = token_of (hash (current h)) ++ tail) /\
  (includes "#other_session_id=t" "session_id=" = true /\
   token_of "#other_session_id=t" = "t") /\
  (forall pathname search behind ahead,
     log (mount BACKEND_URL
            (mkHistory behind (mkLocation pathname search "#session_id=") ahead)) =
     [Request POST (API BACKEND_URL ++ "/auth/session")
        (Some (VObj [("session_id", VStr "")]))]).
Proof.
  split; [|split].
  - intros h H. split; [now apply mount_session|].
    destruct (token_position _ H) as (pre & rest & tail & E & F & T & _).
    now exists pre, rest, tail.
  - now split.
  - intros. rewrite mount_session; reflexivity.
Qed.


End Guarantees.

(** ** Concrete loads *)

Section Runs.

Import Sample.

(** The two scenarios of the specification. *)
Example scenario_handoff :
  exists w,
    load backend (visit "/tutor" "" "#session_id=xyz")
      (Fulfilled (mkResponse (VObj [("user", ann)]))) = Some w /\
    user (app w) = ann /\
    current (history w) = mkLocation "/tutor" "" "" /\
    App (app w) (pathname (current (history w))) = Show AITutor.
Proof. eexists. split; [reflexivity|]. repeat split. Qed.

Example scenario_no_cookie :
  exists w,
    load backend (visit "/dashboard" "" "") (Rejected unauthorized) = Some w /\
    user (app w) = VNull /\
    present 2 (app w) (history w) =
      Some (visit "/" "" "", [Navigate "/" true; Show Home]).
Proof. eexists. split; [reflexivity|]. repeat split. Qed.

(** C1 as stated fails: Ann is signed in, the logout request is rejected,
    and Ann is still the stored identity when [logout] has completed. *)
Lemma logout_rejected_keeps_identity :
  load backend (visit "/" "" "") (Fulfilled (mkResponse ann)) = Some signed_in /\
  fst (logout backend (Rejected network_error) signed_in) = inr tt /\
  user (app (snd (logout backend (Rejected network_error) signed_in))) = ann /\
  ann <> VNull.
Proof. repeat split. discriminate. Qed.

(** C2 as stated fails: on the landing view the session request is
    rejected, the resolution settles, the landing page is rendered, and
    the fragment is still in the current entry. *)
Lemma fragment_kept_when_session_fails :
  exists w,
    load backend (visit "/" "" "#session_id=xyz") (Rejected network_error) = Some w /\
    resolving w = None /\
    phase_of (app w) = ANONYMOUS /\
    present 2 (app w) (history w) = Some (visit "/" "" "#session_id=xyz", [Show Home]) /\
    render w = Some w /\
    hash (current (history w)) = "#session_id=xyz" /\
    includes (hash (current (history w))) "session_id=" = true.
Proof. eexists. split; [reflexivity|]. repeat split. Qed.

Lemma fragment_stripped_witness :
  includes (hash (current (visit "/tutor" "?ref=mail" "#session_id=xyz"))) "session_id=" = true /\
  exists w w',
    load backend (visit "/tutor" "?ref=mail" "#session_id=xyz")
      (Fulfilled (mkResponse (VObj [("user", ann)]))) = Some w /\
    render w = Some w' /\
    history w = visit "/tutor" "" "" /\
    In (HistoryReplace "/tutor") (log w) /\
    hash (current (history w')) = "" /\
    behind (history w') = [] /\ ahead (history w') = [].
Proof.
  split; [reflexivity|].
  destruct (fragment_stripped_when_session_established backend
              (visit "/tutor" "?ref=mail" "#session_id=xyz")
              (Fulfilled (mkResponse (VObj [("user", ann)]))) eq_refl)
    as (w & w' & L & R & S & _).
  exists w, w'. split; [exact L|]. split; [exact R|]. exact (S eq_refl eq_refl).
Defined.

Lemma loading_screen_witness :
  unsettled backend (visit "/dashboard" "" "") (app (mount backend (visit "/dashboard" "" ""))) /\
  App (app (mount backend (visit "/dashboard" "" ""))) "/dashboard" = LoadingScreen.
Proof.
  assert (unsettled backend (visit "/dashboard" "" "")
            (app (mount backend (visit "/dashboard" "" "")))) as U.
  { apply (request_in_flight backend (visit "/dashboard" "" "") []); [reflexivity | discriminate]. }
  split; [exact U|].
  exact (proj2 (loading_screen_while_pending backend _ _ "/dashboard" U)).
Defined.

Lemma guard_witness :
  2 <= 2 /\
  forallb protected ["/tutor"; "/dashboard"; "/tutor"] = true /\
  requests 2 (app signed_out) ["/tutor"; "/dashboard"; "/tutor"] (visit "/" "" "") =
    Some (mkHistory [home; home; home] home [],
          [Navigate "/" true; Show Home; Navigate "/" true; Show Home;
           Navigate "/" true; Show Home]) /\
  App (app signed_in) "/tutor" = Show AITutor /\
  App (app signed_in) "/dashboard" = Show Dashboard.
Proof.
  split; [lia|]. split; [reflexivity|].
  pose proof (guard_redirects_anonymous_visitors (app signed_out) 2
                ["/tutor"; "/dashboard"; "/tutor"] (visit "/" "" "")
                (le_n 2) eq_refl) as [G _].
  destruct (G eq_refl) as (_ & R & _).
  split; [exact R|].
  pose proof (guard_redirects_anonymous_visitors (app signed_in) 2
                ["/tutor"; "/dashboard"] (visit "/" "" "")
                (le_n 2) eq_refl) as [_ A].
  split; [apply (A eq_refl "/tutor") | apply (A eq_refl "/dashboard")]; cbn; auto.
Defined.

Lemma one_resolution_path_witness :
  exists w,
    load backend (visit "/tutor" "" "#session_id=xyz") (Rejected network_error) = Some w /\
    calls POST (API backend ++ "/auth/session") (log w) = 1 /\
    calls GET (API backend ++ "/auth/me") (log w) = 0.
Proof.
  destruct (one_resolution_path_per_load backend (visit "/tutor" "" "#session_id=xyz")
              (Rejected network_error)) as (w & L & C).
  exists w. split; [exact L|]. exact (C [] w eq_refl).
Defined.

(** C6 as stated fails: a second [session_id=] in front of the next [&]
    ends the token, so the code yields [abc] where the substring up to the
    end of the string is [abcsession_id=def]. *)
Lemma token_cut_at_second_key :
  includes "#session_id=abcsession_id=def" "session_id=" = true /\
  sessionId "#session_id=abcsession_id=def" = inr (VStr "abc") /\
  spec_token "#session_id=abcsession_id=def" = "abcsession_id=def" /\
  sessionId "#session_id=abcsession_id=def"
    <> inr (VStr (spec_token "#session_id=abcsession_id=def")).
Proof. repeat split. discriminate. Qed.

Lemma token_extraction_witness :
  includes "#session_id=abc123&foo=bar" "session_id=" = true /\
  sessionId "#session_id=abc123&foo=bar" = inr (VStr "abc123") /\
  token_of "#session_id=abc123&foo=bar" = spec_token "#session_id=abc123&foo=bar".
Proof.
  split; [reflexivity|].
  destruct (proj1 token_extraction "#session_id=abc123&foo=bar" eq_refl) as (S & _ & T).
  split; [exact S | exact (T eq_refl)].
Defined.

Lemma failed_me_witness :
  includes (hash (current (visit "/dashboard" "" ""))) "session_id=" = false /\
  exists w,
    load backend (visit "/dashboard" "" "") (Rejected unauthorized) = Some w /\
    user (app w) = VNull /\
    phase_of (app w) = ANONYMOUS /\
    log w = [Request GET (API backend ++ "/auth/me") None] /\
    filter is_console_error (log w) = [] /\
    history w = visit "/dashboard" "" "".
Proof.
  split; [reflexivity|].
  exact (failed_me_resolves_to_anonymous_silently backend (visit "/dashboard" "" "")
           unauthorized eq_refl).
Defined.

Lemma anonymous_is_terminal_witness :
  run backend [ResolverSettles (Rejected unauthorized)]
    (mount backend (visit "/dashboard" "" "")) = Some signed_out /\
  phase_of (app signed_out) = ANONYMOUS /\
  forall more w',
    run backend more signed_out = Some w' -> phase_of (app w') = ANONYMOUS.
Proof.
  split; [reflexivity|]. split; [reflexivity|].
  exact (proj2 (anonymous_is_terminal backend (visit "/dashboard" "" "")
                  [ResolverSettles (Rejected unauthorized)] signed_out eq_refl) eq_refl).
Defined.

Lemma fragment_detection_witness :
  includes (hash (current (visit "/tutor" "" "#other_session_id=t"))) "session_id=" = true /\
  log (mount backend (visit "/tutor" "" "#other_session_id=t")) =
    [Request POST (API backend ++ "/auth/session")
       (Some (VObj [("session_id", VStr "t")]))].
Proof.
  split; [reflexivity|].
  destruct (proj1 (fragment_detection_is_a_substring_test backend)
              (visit "/tutor" "" "#other_session_id=t") eq_refl) as [M _].
  rewrite M. reflexivity.
Defined.



End Runs.

(** * Further properties *)

(** ** More of the shell *)

Section MoreShell.

Variable BACKEND_URL : string.

Lemma sessionId_absent (hash : string) :
  includes hash "session_id=" = false ->
  sessionId hash = inl (TypeError "Cannot read properties of undefined (reading 'split')").
Proof.
  intros H. destruct (before_after_none _ _ H) as [_ A].
  unfold sessionId. rewrite (split_unfold "session_id=" hash) by discriminate.
  rewrite A. reflexivity.
Qed.

(** The mount effect never throws, and the guard in front of the token
    extraction is exactly what that takes: the extraction throws a
    TypeError on the fragments without [session_id=] and on no other. *)
Theorem extraction_throws_exactly_without_key (h : History) (hash : string) :
  fst (resolver BACKEND_URL (initial h)) = inr tt /\
  ((exists e, sessionId hash = inl e) <-> includes hash "session_id=" = false).
Proof.
  split; [apply resolver_completes|]. split.
  - intros [e E]. destruct (includes hash "session_id=") eqn:I; [|reflexivity].
    rewrite (sessionId_token _ I) in E. discriminate.
  - intros I. eexists. now apply sessionId_absent.
Qed.

(** Every load ends resolved, and it ends authenticated exactly when the
    resolver's request was fulfilled with an identity that is truthy:
    [data.user] on the session path, [data] on the [/auth/me] path.  A
    fulfilled request without such an identity leaves the visitor
    anonymous. *)
Theorem load_outcome (h : History) (p : settled response) :
  exists w,
    load BACKEND_URL h p = Some w /\
    resolving w = None /\
    phase_of (app w) <> PENDING /\
    (phase_of (app w) = AUTHENTICATED <->
     exists r u, p = Fulfilled r /\
                 identity (hash (current h)) r = inr u /\ truthy u = true).
Proof.
  unfold identity, load, step.
  destruct (includes (hash (current h)) "session_id=") eqn:I.
  - rewrite (mount_session _ _ I). cbn [resolving].
    destruct p as [r|e]; chain.
    + destruct (get (data r) "user") as [e|u] eqn:G; cbn.
      * eexists. split; [reflexivity|]. split; [reflexivity|]. split; [discriminate|].
        split; [discriminate|]. intros (r' & u & E & G' & _). injection E as <-. congruence.
      * assert (phase_of (mkAppState u false false) <> PENDING /\
                  (phase_of (mkAppState u false false) = AUTHENTICATED <->
                   exists r' u', Fulfilled r = Fulfilled r' /\
                                 get (data r') "user" = inr u' /\ truthy u' = true)) as K.
        { unfold phase_of, pending. cbn.
          destruct (truthy u) eqn:T.
          - split; [discriminate|]. split; [|reflexivity]. intros _. now exists r, u.
          - split; [discriminate|]. split; [discriminate|].
            intros (r' & u' & E & G' & T'). injection E as <-. congruence. }
        destruct (resolve h.(current) (pathname h.(current))); cbn;
          (eexists; split; [reflexivity|]; split; [reflexivity|]; exact K).
    + eexists. split; [reflexivity|]. split; [reflexivity|]. split; [discriminate|].
      split; [discriminate|]. intros (r & u & E & _). discriminate.
  - rewrite (mount_me _ _ I). cbn [resolving].
    destruct p as [r|e]; chain.
    + eexists. split; [reflexivity|]. split; [reflexivity|].
      unfold phase_of, pending. cbn. destruct (truthy (data r)) eqn:T.
      * split; [discriminate|]. split; [|reflexivity]. intros _. now exists r, (data r).
      * split; [discriminate|]. split; [discriminate|].
        intros (r' & u' & E & G' & T'). injection E as <-. injection G' as <-. congruence.
    + eexists. split; [reflexivity|]. split; [reflexivity|]. split; [discriminate|].
      split; [discriminate|]. intros (r & u & E & _). discriminate.
Qed.

Lemma step_history (o : op) (w w' : World) :
  step BACKEND_URL o w = Some w' ->
  history w' = history w \/
  exists there,
    resolve (current (history w)) (pathname (current (history w))) = Some there /\
    history w' = replaceState there (history w).
Proof.
  destruct o as [p | | p]; unfold step.
  - destruct (resolving w) as [[|]|]; [| |discriminate]; intros H; injection H as <-.
    + destruct p as [r|e]; chain; [|now left].
      destruct (get (data r) "user") as [e|u]; cbn; [now left|].
      destruct (resolve (current (history w)) (pathname (current (history w)))) eqn:R; cbn.
      * right. now exists l.
      * now left.
    + destruct p as [r|e]; chain; now left.
  - destruct (pending (app w)); [discriminate|]. intros H; injection H as <-. now left.
  - destruct (logouts w); [discriminate|]. intros H; injection H as <-.
    destruct p as [r|e]; chain; now left.
Qed.

Lemma moment_history (m : moment) (w w' : World) :
  moment_step BACKEND_URL m w = Some w' ->
  history w' = history w \/
  history w' = replaceState home (history w) \/
  exists there,
    resolve (current (history w)) (pathname (current (history w))) = Some there /\
    history w' = replaceState there (history w).
Proof.
  destruct m as [o|]; cbn [moment_step]; intros H.
  - destruct (step_history _ _ _ H) as [S | S]; auto.
  - destruct (render_cases w) as [[R _] | (R & _)]; rewrite R in H; injection H as <-.
    + now left.
    + right. now left.
Qed.

(** The shell adds no history entry and takes none away.  Over the whole
    life of a page load, with the operations of the shell and the renders
    of [App] in any order, the guard's redirects included, the entries
    behind and ahead are the ones the load started with.  When the path of
    the document is rooted, the current entry keeps that path until a
    redirect of the guard makes it the landing view. *)
Theorem shell_never_adds_an_entry (h : History) (l : list moment) (w : World) :
  live BACKEND_URL l (mount BACKEND_URL h) = Some w ->
  behind (history w) = behind h /\
  ahead (history w) = ahead h /\
  List.length (entries (history w)) = List.length (entries h) /\
  (rooted (pathname (current h)) = true ->
   pathname (current (history w)) = pathname (current h) \/
   current (history w) = home).
Proof.
  assert (forall l w0 w1,
            live BACKEND_URL l w0 = Some w1 ->
            behind (history w1) = behind (history w0) /\
            ahead (history w1) = ahead (history w0) /\
            forall p0, rooted p0 = true ->
              (pathname (current (history w0)) = p0 \/ current (history w0) = home) ->
              (pathname (current (history w1)) = p0 \/ current (history w1) = home)) as K.
  { clear. intros l. induction l as [|m l IH]; intros w0 w1 H; cbn [live] in H.
    - injection H as <-. repeat split. auto.
    - destruct (moment_step BACKEND_URL m w0) as [wm|] eqn:E; [|discriminate].
      destruct (IH _ _ H) as (B & A & P).
      destruct (moment_history _ _ _ E) as [S | [S | (there & R & S)]];
        rewrite S in B, A, P; cbn [replaceState behind ahead current] in B, A, P.
      + repeat split; assumption.
      + split; [exact B|]. split; [exact A|]. intros p0 Rt _. apply (P p0 Rt). now right.
      + split; [exact B|]. split; [exact A|]. intros p0 Rt [Q | Q]; apply (P p0 Rt).
        * rewrite Q in R. rewrite (resolve_rooted _ _ Rt) in R. injection R as <-. now left.
        * rewrite Q in R. cbn in R. injection R as <-. now right. }
  intros H.
  assert (history (mount BACKEND_URL h) = h) as M.
  { destruct (includes (hash (current h)) "session_id=") eqn:I.
    - now rewrite (mount_session _ _ I).
    - now rewrite (mount_me _ _ I). }
  destruct (K _ _ _ H) as (B & A & P). rewrite M in B, A, P.
  split; [exact B|]. split; [exact A|]. split.
  - unfold entries. rewrite !length_app, !length_rev. cbn [List.length]. now rewrite B, A.
  - intros Rt. apply (P _ Rt). now left.
Qed.

(** [App] redirects only once the resolution has settled and only a
    visitor without identity, and every redirect goes to [/] and replaces.
    It does redirect such a visitor on every path that the router matches
    to [/tutor] or [/dashboard].  The paths matched to [/] and [/features]
    are shown to everybody. *)
Theorem redirect_only_without_identity (s : AppState) (path : string) :
  (forall to replace,
     App s path = Navigate to replace ->
     pending s = false /\ truthy (user s) = false /\ to = "/" /\ replace = true) /\
  (pending s = false -> truthy (user s) = false -> protected path = true ->
   App s path = Navigate "/" true) /\
  (pending s = false ->
   (route_match "/" path = true -> App s path = Show Home) /\
   (route_match "/features" path = true -> App s path = Show Features)).
Proof.
  split; [|split].
  - intros to replace E. apply App_navigate_inv in E. tauto.
  - intros P U G. rewrite (App_resolved _ _ P G), U. reflexivity.
  - apply App_public.
Qed.

(** Rendering settles after at most one redirect: for every component
    state and every history two rounds are enough, more rounds change
    nothing, and what is on the screen at the end is no redirect. *)
Theorem rendering_settles (fuel : nat) (s : AppState) (h : History) :
  2 <= fuel ->
  exists h' shown final,
    present fuel s h = Some (h', shown) /\
    present 2 s h = Some (h', shown) /\
    List.length shown <= 2 /\
    last shown NoMatch = final /\
    (forall to replace, final <> Navigate to replace) /\
    final = App s (pathname (current h')).
Proof.
  intros F. destruct fuel as [|[|fuel]]; [lia | lia |].
  cbn [present].
  destruct (App s (pathname (current h))) as [ | pg | to replace | ] eqn:E.
  - exists h, [LoadingScreen], LoadingScreen. rewrite E. repeat split; cbn; try lia; discriminate.
  - exists h, [Show pg], (Show pg). rewrite E. repeat split; cbn; try lia; discriminate.
  - destruct (App_navigate_inv _ _ _ _ E) as (-> & -> & P & _).
    pose proof (App_home _ P) as Hm.
    unfold navigate. rewrite resolve_home. cbn [replaceState current pathname home].
    rewrite Hm.
    exists (mkHistory (behind h) home (ahead h)), [Navigate "/" true; Show Home], (Show Home).
    repeat split; cbn; try lia; try discriminate. now rewrite Hm.
  - exists h, [NoMatch], NoMatch. rewrite E. repeat split; cbn; try lia; discriminate.
Qed.

End MoreShell.

(** ** Home and Features *)

Section HomeFacts.

Variable BACKEND_URL : string.

Lemma navigate_push (path : string) (h : History) :
  rooted path = true -> navigate path false h = pushState (mkLocation path "" "") h.
Proof. intros R. unfold navigate. now rewrite (resolve_rooted _ _ R). Qed.

(** [handleLogout] of [Home] always runs to its end on the landing view:
    whether the logout request succeeded or not, one entry for [/] is
    pushed and the landing page is shown.  After a rejected request the
    identity is still the one from before, so the landing page is shown to
    a visitor who is still signed in. *)
Theorem handleLogout_ends_on_landing (p : settled response) (w : World) :
  pending (app w) = false ->
  fst (handleLogout BACKEND_URL p w) = inr tt /\
  history (snd (handleLogout BACKEND_URL p w)) = pushState home (history w) /\
  App (app (snd (handleLogout BACKEND_URL p w)))
      (pathname (current (history (snd (handleLogout BACKEND_URL p w))))) = Show Home /\
  user (app (snd (handleLogout BACKEND_URL p w))) =
    match p with
    | Fulfilled _ => VNull
    | Rejected _ => user (app w)
    end.
Proof.
  intros P. unfold pending in P.
  destruct p as [r|e]; unfold handleLogout, useNavigate; chain;
    unfold App; cbn; rewrite P; repeat split.
Qed.

(** [handleGetStarted] of [Home] never runs into the guard's redirect.
    With an identity it pushes [/tutor], which [App] shows at once;
    without one it changes nothing in the application and leaves for the
    login URL. *)
Theorem get_started_never_meets_the_guard (origin : string) (w : World) :
  pending (app w) = false ->
  if truthy (user (app w)) then
    handleGetStarted origin w =
      (inr None,
       mkWorld (app w) (pushState (mkLocation "/tutor" "" "") (history w))
         (log w) (resolving w) (logouts w)) /\
    present 2 (app w) (pushState (mkLocation "/tutor" "" "") (history w)) =
      Some (pushState (mkLocation "/tutor" "" "") (history w), [Show AITutor])
  else
    handleGetStarted origin w = (inr (Some (loginUrl origin)), w).
Proof.
  intros P. unfold handleGetStarted.
  destruct (truthy (user (app w))) eqn:U; [|reflexivity].
  split.
  - unfold useNavigate; chain. reflexivity.
  - cbn [present pushState current pathname].
    rewrite (App_resolved (app w) "/tutor" P eq_refl), U. reflexivity.
Qed.

(** What the navigation bar of [Features] offers agrees with the guard:
    the links to the guarded routes are offered exactly when [App] shows
    those routes, and the login button exactly when [App] would redirect
    them. *)
Theorem features_offers_agree_with_guard (origin : string) (s : AppState) :
  pending s = false ->
  match featuresNav origin s with
  | GuardedLinks tutor dashboard =>
      App s tutor = Show AITutor /\ App s dashboard = Show Dashboard
  | LoginButton url =>
      url = loginUrl origin /\
      App s "/tutor" = Navigate "/" true /\ App s "/dashboard" = Navigate "/" true
  end.
Proof.
  intros P. unfold featuresNav.
  pose proof (App_resolved s "/tutor" P eq_refl) as T.
  pose proof (App_resolved s "/dashboard" P eq_refl) as D.
  destruct (truthy (user s)); now repeat split.
Qed.

(** The button at the foot of [Features] sends a signed-in visitor to
    [/tutor] by loading the document anew: the history gains an entry, the
    identity held in memory is gone, and the fresh shell asks [/auth/me]
    for it, once. *)
Theorem features_cta_reloads (origin : string) (s : AppState) (h : History) :
  truthy (user s) = true ->
  exists w,
    assign BACKEND_URL (featuresCta origin s) h = Some w /\
    history w = pushState (mkLocation "/tutor" "" "") h /\
    phase_of (app w) = PENDING /\
    user (app w) = VNull /\
    log w = [Request GET (API BACKEND_URL ++ "/auth/me") None].
Proof.
  intros U. unfold featuresCta, assign. rewrite U.
  rewrite (resolve_rooted _ "/tutor" eq_refl).
  eexists. split; [reflexivity|].
  rewrite mount_me by reflexivity. repeat split.
Qed.

End HomeFacts.

(** ** Dashboard *)

Section DashboardFacts.

Import DashboardPage.

Variable BACKEND_URL : string.

(** For a whole, non-negative number of points that a double holds
    exactly together with the hundred points more (up to 2^53 - 100), the
    level and the bar split the points: [xp] is a hundred times the levels
    completed plus the bar, the bar lies in [0, 100), the level is at
    least 1, and a hundred points more are one level more with the same
    bar.  The points shown for a [progress] whose [xp_points] is such a
    number are that number. *)
Theorem xp_splits_into_level_and_bar (progress : value) (xp : Z) :
  optional progress "xp_points" = VNum xp ->
  (0 <= xp)%Z ->
  (xp + 100 <= 2 ^ 53)%Z ->
  xp_points progress = VNum xp /\
  exists level bar,
    getXPLevel xp = Some level /\
    getXPProgress xp = Some bar /\
    xp = (100 * (level - 1) + bar)%Z /\
    (0 <= bar < 100)%Z /\
    (1 <= level)%Z /\
    getXPLevel (xp + 100) = Some (level + 1)%Z /\
    getXPProgress (xp + 100) = Some bar.
Proof.
  intros O N S. unfold xp_points, or_else, getXPLevel, getXPProgress. rewrite O.
  split.
  - cbn. destruct (Z.eqb_spec xp 0) as [->|]; reflexivity.
  - assert (safe xp = true) as -> by (unfold safe; apply Z.leb_le; lia).
    assert (safe (xp + 100) = true) as -> by (unfold safe; apply Z.leb_le; lia).
    rewrite !Z.rem_mod_nonneg by lia.
    pose proof (Z.div_mod xp 100 ltac:(lia)) as D.
    pose proof (Z.mod_pos_bound xp 100 ltac:(lia)) as B.
    pose proof (Z.div_pos xp 100 N ltac:(lia)) as Q.
    replace (xp + 100)%Z with (xp + 1 * 100)%Z by lia.
    rewrite Z.div_add, Z.mod_add by lia.
    eexists _, _. split; [reflexivity|]. split; [reflexivity|].
    repeat split; try lia.
Qed.

(** [fetchDashboardData] is all or nothing.  Both requests always go out
    and [loading] always ends false.  Both cells are set when both
    requests were fulfilled, and then nothing is reported; when either
    one was rejected both cells keep what they held, also the one whose
    request was fulfilled, and one console error and one toast are
    produced. *)
Theorem dashboard_fetch_is_all_or_nothing
  (p1 p2 : settled response) (second_first : bool) (s : State) (seen : list notice) :
  let out := fetchDashboardData BACKEND_URL p1 p2 second_first (s, seen) in
  fst out = inr tt /\
  loading (fst (snd out)) = false /\
  exists tail,
    snd (snd out) =
      (seen ++ Did (Request GET (API BACKEND_URL ++ "/progress") None)
            :: Did (Request GET (API BACKEND_URL ++ "/quiz/results") None)
            :: tail)%list /\
    match p1, p2 with
    | Fulfilled r1, Fulfilled r2 =>
        progress (fst (snd out)) = data r1 /\
        quizResults (fst (snd out)) = data r2 /\
        tail = []
    | _, _ =>
        progress (fst (snd out)) = progress s /\
        quizResults (fst (snd out)) = quizResults s /\
        exists e, tail = [Did (ConsoleError "Failed to fetch dashboard data:" e);
                          ToastError "Failed to load dashboard data"]
    end.
Proof.
  unfold fetchDashboardData, promise_all, Page.finally, Page.catch, Page.bind,
    Page.await, Page.axios_get, Page.console_error, Page.toast_error, Page.emit,
    Page.modify, Page.ret, Page.throw.
  destruct p1 as [r1|e1], p2 as [r2|e2]; cbn.
  - split; [reflexivity|]. split; [reflexivity|]. exists [].
    split; [rewrite <- !app_assoc; reflexivity | repeat split].
  - split; [reflexivity|]. split; [reflexivity|]. eexists.
    split; [rewrite <- !app_assoc; reflexivity|].
    split; [reflexivity|]. split; [reflexivity|]. eexists. reflexivity.
  - split; [reflexivity|]. split; [reflexivity|]. eexists.
    split; [rewrite <- !app_assoc; reflexivity|].
    split; [reflexivity|]. split; [reflexivity|]. eexists. reflexivity.
  - split; [reflexivity|]. split; [reflexivity|]. eexists.
    split; [rewrite <- !app_assoc; reflexivity|].
    split; [reflexivity|]. split; [reflexivity|]. eexists. reflexivity.
Qed.

(** The greeting's first name.  For a user whose [name] is a string it is
    the text in front of the first space: it holds no space, the name is
    it followed by nothing or by a space, and a name that starts with a
    space gives the empty first name.  The expression throws exactly for
    a user that is not nullish and whose [name] is neither nullish nor a
    string. *)
Theorem first_name_is_the_text_before_the_first_space :
  (forall fields s,
     assoc "name" fields = Some (VStr s) ->
     firstName (VObj fields) = inr (VStr (before " " s)) /\
     includes (before " " s) " " = false /\
     (exists tail, s = before " " s ++ tail /\
                   (tail = "" \/ String.prefix " " tail = true)) /\
     (String.prefix " " s = true -> before " " s = "")) /\
  (forall user,
     (exists e, firstName user = inl e) <->
     nullish user = false /\
     exists name, get user "name" = inr name /\ nullish name = false /\
                  forall s, name <> VStr s).
Proof.
  split.
  - intros fields s A. unfold firstName, get. cbn [nullish]. rewrite A. cbn [nullish].
    rewrite (split_unfold " " s) by discriminate. cbn [nth_error].
    split; [reflexivity|]. split; [apply before_free; discriminate|].
    split; [apply before_tail|].
    intros Pre. destruct s as [|c s]; [apply before_nil|].
    rewrite before_cons, Pre. reflexivity.
  - intros user. unfold firstName. split.
    + intros [e E]. destruct (nullish user) eqn:N; [discriminate|].
      split; [reflexivity|].
      destruct (get user "name") as [e'|name] eqn:G.
      * destruct user; cbn in N, G; try discriminate.
        destruct (assoc "name" fields); discriminate.
      * exists name. split; [reflexivity|].
        destruct (nullish name) eqn:N'; [discriminate|]. split; [reflexivity|].
        intros s ->. destruct (nth_error (split " " s) 0); discriminate.
    + intros (N & name & G & N' & S). rewrite N, G, N'.
      destruct name; try (eexists; reflexivity); try discriminate.
      now destruct (S s).
Qed.

End DashboardFacts.

(** ** AITutor *)

(** Runs the statements of a page symbolically. *)
Ltac page_chain :=
  unfold TutorPage.handleSendMessage, TutorPage.handleKeyPress,
    TutorPage.handleSendMessage_call, TutorPage.handleSendMessage_resume,
    TutorPage.handleTopicSelect, TutorPage.fetchTopics,
    TutorPage.setTopics, TutorPage.setSelectedTopic, TutorPage.setMessages,
    TutorPage.setInputMessage, TutorPage.setLoading, TutorPage.setChatId,
    TutorPage.setInflight,
    Page.finally, Page.catch, Page.bind, Page.await, Page.lift, Page.read,
    Page.axios_get, Page.axios_post, Page.console_error, Page.toast_error,
    Page.emit, Page.modify, Page.ret, Page.throw;
  cbn [fst snd].

Section TrimFacts.

Lemma trimStart_cons (c : ascii) (s : string) :
  trimStart (String c s) = if white c then trimStart s else String c s.
Proof. reflexivity. Qed.

Lemma trimEnd_cons (c : ascii) (s : string) :
  trimEnd (String c s) =
  match trimEnd s with
  | EmptyString => if white c then EmptyString else String c EmptyString
  | kept => String c kept
  end.
Proof. reflexivity. Qed.

Lemma trimEnd_empty (s : string) :
  trimEnd s = "" <-> forall c, In c (list_ascii_of_string s) -> white c = true.
Proof.
  induction s as [|a s IH].
  - split; [intros _ c [] | reflexivity].
  - rewrite trimEnd_cons. cbn [list_ascii_of_string In]. split.
    + intros H c [<- | Hin].
      * destruct (trimEnd s); [|discriminate]. now destruct (white a).
      * apply IH; [|exact Hin]. now destruct (trimEnd s).
    + intros H. rewrite (proj2 IH) by auto. now rewrite (H a) by auto.
Qed.

Lemma trimStart_head (s : string) :
  trimStart s = "" \/ exists c rest, trimStart s = String c rest /\ white c = false.
Proof.
  induction s as [|a s IH]; [now left|].
  rewrite trimStart_cons. destruct (white a) eqn:W; [exact IH|].
  right. now exists a, s.
Qed.

Lemma trimStart_empty (s : string) :
  trimStart s = "" <-> forall c, In c (list_ascii_of_string s) -> white c = true.
Proof.
  induction s as [|a s IH].
  - split; [intros _ c [] | reflexivity].
  - rewrite trimStart_cons. cbn [list_ascii_of_string In]. split.
    + destruct (white a) eqn:W; [|discriminate].
      intros H c [<- | Hin]; [exact W | now apply IH].
    + intros H. rewrite (H a) by auto. apply IH. auto.
Qed.

(** [s.trim()] is empty exactly when [s] is white space throughout. *)
Lemma trim_empty (s : string) :
  trim s = "" <-> forall c, In c (list_ascii_of_string s) -> white c = true.
Proof.
  unfold trim. split.
  - intros H. apply trimStart_empty.
    destruct (trimStart_head s) as [E | (c & rest & E & W)]; [exact E|].
    rewrite E in H. pose proof (proj1 (trimEnd_empty _) H c) as K.
    cbn in K. rewrite K in W by auto. discriminate.
  - intros H. now rewrite (proj2 (trimStart_empty s) H).
Qed.

Lemma truthy_string (s : string) : truthy (VStr s) = true <-> s <> "".
Proof. destruct s; cbn; split; congruence. Qed.

Lemma get_optional (v : value) (k : string) :
  nullish v = false -> get v k = inr (optional v k).
Proof.
  intros N. unfold optional. rewrite N.
  destruct v; try discriminate; cbn; try reflexivity.
  destruct (assoc k fields); reflexivity.
Qed.

End TrimFacts.

Section TutorFacts.

Import TutorPage.

Variable BACKEND_URL : string.

(** Without a topic, or with an input that is white space throughout,
    [handleSendMessage] does nothing at all: no message is added, no
    request goes out, no cell changes; the same for Enter. *)
Theorem blank_send_does_nothing
  (now : string) (p : settled response) (s : State) (seen : list notice) :
  (selectedTopic s = None \/
   forall c, In c (list_ascii_of_string (inputMessage s)) -> white c = true) ->
  handleSendMessage BACKEND_URL now p (s, seen) = (inr tt, (s, seen)) /\
  handleKeyPress BACKEND_URL "Enter" false now (s, seen) = (inr false, (s, seen)).
Proof.
  intros H.
  assert (handleSendMessage_call BACKEND_URL now (s, seen) = (inr false, (s, seen))) as C.
  { page_chain. destruct (selectedTopic s) as [topic|]; [|reflexivity].
    destruct H as [H|H]; [discriminate|].
    now rewrite (proj2 (trim_empty _) H). }
  split.
  - unfold handleSendMessage, Page.bind. now rewrite C.
  - unfold handleKeyPress. cbn. exact C.
Qed.

Lemma send_call (now : string) (s : State) (seen : list notice) (topic : Topic) :
  selectedTopic s = Some topic ->
  trim (inputMessage s) <> "" ->
  handleSendMessage_call BACKEND_URL now (s, seen) =
  (inr true,
   (mkState (topics s) (Some topic)
      (messages s ++ [mkMessage "user" (VStr (inputMessage s)) (VStr now)])
      "" true (chatId s) (S (inflight s)),
    (seen ++ [chat_request BACKEND_URL s topic])%list)).
Proof.
  intros T N. apply truthy_string in N. page_chain. rewrite T, N. cbn. now rewrite T.
Qed.

Lemma send_resume (p : settled response) (s : State) (seen : list notice) :
  handleSendMessage_resume p (s, seen) =
  (inr tt,
   match p with
   | Fulfilled r =>
       if nullish (data r) then
         (mkState (topics s) (selectedTopic s) (messages s) (inputMessage s) false
            (chatId s) (Nat.pred (inflight s)),
          (seen ++ [Did (ConsoleError "Chat error:"
                           (match get (data r) "chat_id" with
                            | inl e => e
                            | inr _ => TypeError ""
                            end));
                    ToastError "Failed to send message. Please try again."])%list)
       else
         (mkState (topics s) (selectedTopic s)
            (messages s ++ [mkMessage "assistant" (optional (data r) "response")
                              (optional (data r) "timestamp")])
            (inputMessage s) false (optional (data r) "chat_id")
            (Nat.pred (inflight s)),
          seen)
   | Rejected e =>
       (mkState (topics s) (selectedTopic s) (messages s) (inputMessage s) false
          (chatId s) (Nat.pred (inflight s)),
        (seen ++ [Did (ConsoleError "Chat error:" e);
                  ToastError "Failed to send message. Please try again."])%list)
   end).
Proof.
  destruct p as [r|e]; page_chain; cbn.
  - destruct (nullish (data r)) eqn:N.
    + destruct (get_throws _ "chat_id" N) as [e G]. rewrite G. cbn.
      now rewrite <- app_assoc.
    + rewrite !(get_optional _ _ N). reflexivity.
  - now rewrite <- app_assoc.
Qed.

(** What a send leaves behind.  With a topic and an input that is not
    blank, [handleSendMessage] runs to its end with [loading] false and
    the input cleared.  The visitor's message, as typed and not trimmed,
    is appended and stays also when the request fails; the reply is
    appended behind it and the chat id taken over only when the request was
    fulfilled with a body, and otherwise one console error and one toast
    are produced and the chat id is kept. *)
Theorem send_appends_message_and_reply
  (now : string) (p : settled response) (s : State) (seen : list notice)
  (topic : Topic) :
  selectedTopic s = Some topic ->
  trim (inputMessage s) <> "" ->
  let out := handleSendMessage BACKEND_URL now p (s, seen) in
  let s' := fst (snd out) in
  fst out = inr tt /\
  loading s' = false /\ inputMessage s' = "" /\
  selectedTopic s' = Some topic /\ topics s' = topics s /\ inflight s' = inflight s /\
  exists reply tail,
    messages s' =
      (messages s ++ mkMessage "user" (VStr (inputMessage s)) (VStr now) :: reply)%list /\
    snd (snd out) = (seen ++ chat_request BACKEND_URL s topic :: tail)%list /\
    match p with
    | Fulfilled r =>
        if nullish (data r) then
          reply = [] /\ chatId s' = chatId s /\
          exists e, tail = [Did (ConsoleError "Chat error:" e);
                            ToastError "Failed to send message. Please try again."]
        else
          reply = [mkMessage "assistant" (optional (data r) "response")
                     (optional (data r) "timestamp")] /\
          chatId s' = optional (data r) "chat_id" /\ tail = []
    | Rejected e =>
        reply = [] /\ chatId s' = chatId s /\
        tail = [Did (ConsoleError "Chat error:" e);
                ToastError "Failed to send message. Please try again."]
    end.
Proof.
  intros T N. cbv zeta. unfold handleSendMessage, Page.bind.
  rewrite (send_call _ _ _ _ T N), send_resume.
  destruct p as [r|e]; [destruct (nullish (data r))|]; cbn [fst snd
    loading inputMessage selectedTopic topics inflight messages chatId Nat.pred].
  - repeat (split; [reflexivity|]). exists []. eexists.
    split; [reflexivity|]. split; [rewrite <- app_assoc; reflexivity|].
    repeat split. eexists. reflexivity.
  - repeat (split; [reflexivity|]). eexists _, [].
    split; [rewrite <- app_assoc; reflexivity|]. split; [reflexivity|]. repeat split.
  - repeat (split; [reflexivity|]). exists []. eexists.
    split; [reflexivity|]. split; [rewrite <- app_assoc; reflexivity|].
    repeat split.
Qed.

End TutorFacts.

Section TutorMachine.

Import TutorPage.

Variable BACKEND_URL : string.

Lemma send_call_cases (now : string) (s : State) (seen : list notice) :
  handleSendMessage_call BACKEND_URL now (s, seen) = (inr false, (s, seen)) \/
  exists topic,
    selectedTopic s = Some topic /\ trim (inputMessage s) <> "" /\
    handleSendMessage_call BACKEND_URL now (s, seen) =
    (inr true,
     (mkState (topics s) (Some topic)
        (messages s ++ [mkMessage "user" (VStr (inputMessage s)) (VStr now)])
        "" true (chatId s) (S (inflight s)),
      (seen ++ [chat_request BACKEND_URL s topic])%list)).
Proof.
  destruct (selectedTopic s) as [topic|] eqn:T.
  - destruct (truthy (VStr (trim (inputMessage s)))) eqn:N.
    + right. exists topic. apply truthy_string in N.
      split; [reflexivity|]. split; [exact N|]. now apply send_call.
    + left. page_chain. now rewrite T, N.
  - left. page_chain. now rewrite T.
Qed.

Lemma act_select (topic : Topic) (now : string) (s : State) (seen : list notice) :
  act BACKEND_URL (SelectTopic topic now) (s, seen) =
  Some (mkState (topics s) (Some topic) [greeting topic now] (inputMessage s)
          (loading s) VNull (inflight s), seen).
Proof. reflexivity. Qed.

Lemma act_type (text : string) (s : State) (seen : list notice) (topic : Topic) :
  selectedTopic s = Some topic -> loading s = false ->
  act BACKEND_URL (TypeText text) (s, seen) =
  Some (mkState (topics s) (Some topic) (messages s) text false (chatId s)
          (inflight s), seen).
Proof.
  intros T L. unfold act, has_topic. cbn [fst]. rewrite T, L. cbn.
  now rewrite T, L.
Qed.

Lemma act_click (now : string) (s : State) (seen : list notice) (topic : Topic) :
  selectedTopic s = Some topic -> loading s = false ->
  trim (inputMessage s) <> "" ->
  act BACKEND_URL (ClickSend now) (s, seen) =
  Some (mkState (topics s) (Some topic)
          (messages s ++ [mkMessage "user" (VStr (inputMessage s)) (VStr now)])
          "" true (chatId s) (S (inflight s)),
        (seen ++ [chat_request BACKEND_URL s topic])%list).
Proof.
  intros T L N. unfold act, has_topic. cbn [fst]. rewrite T, L.
  rewrite (proj2 (truthy_string _) N). cbn [negb orb andb].
  now rewrite (send_call _ _ _ _ _ T N).
Qed.

Lemma act_settle (p : settled response) (s : State) (seen : list notice) (n : nat) :
  inflight s = S n ->
  act BACKEND_URL (ChatSettles p) (s, seen) =
  Some (snd (handleSendMessage_resume p (s, seen))).
Proof. intros I. unfold act. cbn [fst]. now rewrite I. Qed.

Lemma act_chat_id (a : action) (w w' : State * list notice) :
  act BACKEND_URL a w = Some w' ->
  chatId (fst w') = chat_id_step (chatId (fst w)) a.
Proof.
  destruct w as [s seen]. intros H.
  assert (forall now,
            chatId (fst (snd (handleSendMessage_call BACKEND_URL now (s, seen)))) = chatId s)
    as Call.
  { intros now.
    destruct (send_call_cases now s seen) as [-> | (topic & _ & _ & ->)]; reflexivity. }
  destruct a as [p | topic now | text | key shiftKey now | now | p];
    unfold act in H; cbn [fst] in H; cbn [chat_id_step].
  - injection H as <-. page_chain. destruct p as [r|e]; cbn; [|reflexivity].
    destruct (get (data r) "topics"); reflexivity.
  - injection H as <-. reflexivity.
  - destruct (has_topic s && negb (loading s)); [|discriminate]. now injection H as <-.
  - destruct (has_topic s && negb (loading s)); [|discriminate].
    injection H as <-. unfold handleKeyPress.
    destruct (String.eqb key "Enter" && negb shiftKey); [apply Call | reflexivity].
  - destruct (has_topic s && negb (loading s || negb (truthy (VStr (trim (inputMessage s))))));
      [|discriminate].
    injection H as <-. apply Call.
  - destruct (inflight s); [discriminate|]. injection H as <-. rewrite send_resume.
    destruct p as [r|e]; [destruct (nullish (data r))|]; reflexivity.
Qed.

Lemma acts_chat_id (l : list action) (w w' : State * list notice) :
  acts BACKEND_URL l w = Some w' ->
  chatId (fst w') = chat_id_after l (chatId (fst w)).
Proof.
  unfold chat_id_after. revert w. induction l as [|a l IH]; intros w H; cbn [acts] in H.
  - now injection H as <-.
  - destruct (act BACKEND_URL a w) as [w1|] eqn:E; [|discriminate].
    cbn [fold_left]. rewrite <- (act_chat_id _ _ _ E). now apply IH.
Qed.

(** The chat id a send carries.  After any course of actions on the page,
    the request of a click on the send button carries the input as typed,
    the name of the selected topic, and as [chat_id] the one of the last
    reply that had arrived with a body, or [null] when a topic was
    selected after that reply; when neither has happened, the chat id the
    course started with, [null] on the first render.  A reply that
    arrives after the selection of a topic therefore hands its chat id to
    the next send. *)
Theorem chat_id_follows_last_reply_or_selection
  (l : list action) (w w' w'' : State * list notice) (now : string) :
  acts BACKEND_URL l w = Some w' ->
  act BACKEND_URL (ClickSend now) w' = Some w'' ->
  exists topic,
    selectedTopic (fst w') = Some topic /\
    snd w'' =
      (snd w' ++
       [Did (Request POST (API BACKEND_URL ++ "/chat")
               (Some (VObj [("message", VStr (inputMessage (fst w')));
                            ("topic", VStr (name topic));
                            ("chat_id", chat_id_after l (chatId (fst w)))])))])%list.
Proof.
  intros H C. rewrite <- (acts_chat_id _ _ _ H).
  destruct w' as [s seen]. cbn [fst snd] in *.
  unfold act in C. cbn [fst] in C.
  destruct (has_topic s) eqn:T; [|discriminate].
  destruct (loading s) eqn:L; [discriminate|].
  destruct (truthy (VStr (trim (inputMessage s)))) eqn:N; [|discriminate].
  cbn [andb orb negb] in C.
  unfold has_topic in T. destruct (selectedTopic s) as [topic|] eqn:Sel; [|discriminate].
  apply truthy_string in N.
  rewrite (send_call _ _ _ _ _ Sel N) in C. injection C as <-.
  exists topic. split; reflexivity.
Qed.

(** A reply joins the conversation that is open when it arrives.  When
    another topic is selected while a request waits for its response, the
    reply to that request is appended behind the greeting of the new
    topic, and its chat id becomes the chat id of the new conversation. *)
Theorem reply_joins_the_open_conversation
  (s : State) (seen : list notice) (topic next : Topic)
  (now1 now2 : string) (r : response) :
  selectedTopic s = Some topic ->
  loading s = false ->
  trim (inputMessage s) <> "" ->
  nullish (data r) = false ->
  exists w,
    acts BACKEND_URL
      [ClickSend now1; SelectTopic next now2; ChatSettles (Fulfilled r)]
      (s, seen) = Some w /\
    selectedTopic (fst w) = Some next /\
    messages (fst w) =
      [greeting next now2;
       mkMessage "assistant" (optional (data r) "response")
         (optional (data r) "timestamp")] /\
    chatId (fst w) = optional (data r) "chat_id" /\
    loading (fst w) = false /\
    snd w = (seen ++ [chat_request BACKEND_URL s topic])%list.
Proof.
  intros T L N D.
  cbn [acts]. rewrite (act_click _ _ _ _ T L N), act_select.
  erewrite act_settle by reflexivity. rewrite send_resume, D.
  eexists. split; [reflexivity|]. repeat split.
Qed.

Lemma fetchTopics_cells (p : settled response) (s : State) (seen : list notice) :
  let s' := fst (snd (fetchTopics BACKEND_URL p (s, seen))) in
  selectedTopic s' = selectedTopic s /\ messages s' = messages s /\
  inputMessage s' = inputMessage s /\ loading s' = loading s /\
  chatId s' = chatId s /\ inflight s' = inflight s.
Proof.
  destruct p as [r|e]; page_chain; cbn; [|repeat split].
  destruct (get (data r) "topics"); cbn; repeat split.
Qed.

Lemma resume_cells (p : settled response) (s : State) (seen : list notice) :
  let s' := fst (snd (handleSendMessage_resume p (s, seen))) in
  selectedTopic s' = selectedTopic s /\ loading s' = false /\
  inflight s' = Nat.pred (inflight s) /\
  exists reply, messages s' = (messages s ++ reply)%list.
Proof.
  rewrite send_resume.
  destruct p as [r|e]; [destruct (nullish (data r))|]; cbn;
    repeat (split; [reflexivity|]);
    solve [exists []; now rewrite app_nil_r | eexists; reflexivity].
Qed.

Lemma act_consistent (a : action) (w w' : State * list notice) :
  tutor_consistent (fst w) -> act BACKEND_URL a w = Some w' ->
  tutor_consistent (fst w').
Proof.
  destruct w as [s seen]. unfold tutor_consistent. cbn [fst].
  intros (I & LI & G) H.
  assert (forall now w1,
            has_topic s && negb (loading s) = true ->
            handleSendMessage_call BACKEND_URL now (s, seen) = w1 ->
            inflight (fst (snd w1)) <= 1 /\
            (loading (fst (snd w1)) = true <-> inflight (fst (snd w1)) = 1) /\
            match selectedTopic (fst (snd w1)) with
            | Some topic =>
                exists now rest, messages (fst (snd w1)) = greeting topic now :: rest
            | None => messages (fst (snd w1)) = [] /\ inflight (fst (snd w1)) = 0
            end) as Call.
  { intros now w1 E <-. apply andb_true_iff in E. destruct E as [_ E].
    apply negb_true_iff in E.
    assert (inflight s = 0) as Z.
    { destruct (inflight s) as [|[|n]]; [reflexivity | | lia].
      rewrite (proj2 LI eq_refl) in E. discriminate. }
    destruct (send_call_cases now s seen) as [-> | (topic & T & N & ->)]; cbn [fst snd].
    - auto.
    - cbn. rewrite Z. split; [lia|]. split; [tauto|].
      rewrite T in G. destruct G as (n0 & rest & ->).
      now exists n0, (rest ++ [mkMessage "user" (VStr (inputMessage s)) (VStr now)])%list. }
  destruct a as [p | topic now | text | key shiftKey now | now | p];
    unfold act in H; cbn [fst] in H.
  - injection H as <-.
    destruct (fetchTopics_cells p s seen) as (E1 & E2 & _ & E4 & _ & E6).
    cbv zeta in E1, E2, E4, E6. rewrite E1, E2, E4, E6. auto.
  - injection H as <-. cbn. split; [exact I|]. split; [exact LI|]. now exists now, [].
  - destruct (has_topic s && negb (loading s)); [|discriminate].
    injection H as <-. cbn. auto.
  - destruct (has_topic s && negb (loading s)) eqn:E; [|discriminate].
    injection H as <-. unfold handleKeyPress.
    destruct (String.eqb key "Enter" && negb shiftKey).
    + now apply (Call now).
    + cbn. auto.
  - destruct (has_topic s && negb (loading s || negb (truthy (VStr (trim (inputMessage s))))))
      eqn:E; [|discriminate].
    injection H as <-. apply (Call now); [|reflexivity].
    apply andb_true_iff in E. destruct E as [E1 E2]. rewrite E1. cbn.
    apply negb_true_iff, orb_false_iff in E2. now rewrite (proj1 E2).
  - destruct (inflight s) as [|n] eqn:Z; [discriminate|]. injection H as <-.
    destruct (resume_cells p s seen) as (E1 & E2 & E3 & reply & E4).
    cbv zeta in E1, E2, E3, E4. rewrite E1, E2, E3, E4, Z. cbn [Nat.pred].
    assert (n = 0) as -> by lia.
    split; [lia|]. split; [split; [discriminate | lia]|].
    destruct (selectedTopic s) as [t|].
    + destruct G as (n0 & rest & ->). now exists n0, (rest ++ reply)%list.
    + destruct G as [_ G]. discriminate.
Qed.

Lemma acts_consistent (l : list action) (w w' : State * list notice) :
  tutor_consistent (fst w) -> acts BACKEND_URL l w = Some w' ->
  tutor_consistent (fst w').
Proof.
  revert w. induction l as [|a l IH]; intros w C H; cbn [acts] in H.
  - now injection H as <-.
  - destruct (act BACKEND_URL a w) as [w1|] eqn:E; [|discriminate].
    eapply IH; [|exact H]. eapply act_consistent; eassumption.
Qed.

(** Whatever the visitor and the network do to the page, starting from
    its first render: at most one chat request waits for its response,
    [loading] is true exactly while one does, and the conversation opens
    with the greeting of the topic that is selected; as long as no topic
    is selected there are no messages and no request. *)
Theorem one_chat_request_at_a_time (l : list action) (w : State * list notice) :
  acts BACKEND_URL l (initial, []) = Some w ->
  inflight (fst w) <= 1 /\
  (loading (fst w) = true <-> inflight (fst w) = 1) /\
  match selectedTopic (fst w) with
  | Some topic => exists now rest, messages (fst w) = greeting topic now :: rest
  | None => messages (fst w) = [] /\ inflight (fst w) = 0
  end.
Proof.
  intros H. apply (acts_consistent l (initial, []) w); [|exact H].
  unfold tutor_consistent. cbn. split; [lia|]. split; [|now split].
  split; [discriminate | lia].
Qed.

(** Nothing but the selection of a topic takes a message away: every
    other action leaves the messages as they are or appends to them. *)
Theorem messages_only_grow (a : action) (w w' : State * list notice) :
  act BACKEND_URL a w = Some w' ->
  (exists topic now, a = SelectTopic topic now /\
                     messages (fst w') = [greeting topic now]) \/
  exists more, messages (fst w') = (messages (fst w) ++ more)%list.
Proof.
  destruct w as [s seen]. intros H.
  assert (forall now,
            exists more,
              messages (fst (snd (handleSendMessage_call BACKEND_URL now (s, seen)))) =
              (messages s ++ more)%list) as Call.
  { intros now.
    destruct (send_call_cases now s seen) as [-> | (topic & _ & _ & ->)]; cbn.
    - exists []. now rewrite app_nil_r.
    - eexists. reflexivity. }
  destruct a as [p | topic now | text | key shiftKey now | now | p];
    unfold act in H; cbn [fst] in H.
  - right. injection H as <-.
    destruct (fetchTopics_cells p s seen) as (_ & E & _). cbv zeta in E.
    exists []. now rewrite E, app_nil_r.
  - left. injection H as <-. now exists topic, now.
  - right. destruct (has_topic s && negb (loading s)); [|discriminate].
    injection H as <-. exists []. cbn. now rewrite app_nil_r.
  - right. destruct (has_topic s && negb (loading s)); [|discriminate].
    injection H as <-. unfold handleKeyPress.
    destruct (String.eqb key "Enter" && negb shiftKey); [apply Call|].
    exists []. cbn. now rewrite app_nil_r.
  - right.
    destruct (has_topic s && negb (loading s || negb (truthy (VStr (trim (inputMessage s))))));
      [|discriminate].
    injection H as <-. apply Call.
  - right. destruct (inflight s); [discriminate|]. injection H as <-.
    destruct (resume_cells p s seen) as (_ & _ & _ & reply & E). now exists reply.
Qed.

(** [fetchTopics] never throws and never toasts.  A rejected request, or
    a fulfilled one without a body, leaves the list of topics as it was
    and writes one console error; a fulfilled request with a body makes
    the list whatever the body holds under [topics], [undefined] when it
    holds nothing.  No other cell changes. *)
Theorem fetchTopics_fails_quietly (p : settled response) (s : State) (seen : list notice) :
  let out := fetchTopics BACKEND_URL p (s, seen) in
  let s' := fst (snd out) in
  fst out = inr tt /\
  (forall msg, ~ In (ToastError msg) (skipn (List.length seen) (snd (snd out)))) /\
  selectedTopic s' = selectedTopic s /\ messages s' = messages s /\
  inputMessage s' = inputMessage s /\ loading s' = loading s /\
  chatId s' = chatId s /\
  match p with
  | Fulfilled r =>
      if nullish (data r) then
        topics s' = topics s /\
        exists e, snd (snd out) =
                  (seen ++ [Did (Request GET (API BACKEND_URL ++ "/topics") None);
                            Did (ConsoleError "Failed to fetch topics:" e)])%list
      else
        topics s' = optional (data r) "topics" /\
        snd (snd out) = (seen ++ [Did (Request GET (API BACKEND_URL ++ "/topics") None)])%list
  | Rejected e =>
      topics s' = topics s /\
      snd (snd out) =
        (seen ++ [Did (Request GET (API BACKEND_URL ++ "/topics") None);
                  Did (ConsoleError "Failed to fetch topics:" e)])%list
  end.
Proof.
  assert (forall (a : list notice) b, skipn (List.length a) (a ++ b)%list = b) as Skip.
  { intros a b. induction a; [reflexivity | exact IHa]. }
  cbv zeta. destruct p as [r|e]; page_chain; cbn.
  - destruct (nullish (data r)) eqn:N.
    + destruct (get_throws _ "topics" N) as [e G]. rewrite G. cbn.
      rewrite <- app_assoc, Skip. cbn.
      split; [reflexivity|]. split; [intros msg [H | [H | []]]; discriminate|].
      repeat (split; [reflexivity|]). now exists e.
    + rewrite (get_optional _ _ N). cbn. rewrite Skip. cbn.
      split; [reflexivity|]. split; [intros msg [H | []]; discriminate|].
      repeat split.
  - rewrite <- app_assoc, Skip. cbn.
    split; [reflexivity|]. split; [intros msg [H | [H | []]]; discriminate|].
    repeat split.
Qed.

End TutorMachine.

(** ** The login URL *)

Section LoginUrl.

Lemma chars_append (a b : string) :
  list_ascii_of_string (a ++ b) =
  (list_ascii_of_string a ++ list_ascii_of_string b)%list.
Proof. induction a as [|c a IH]; cbn; [reflexivity | now rewrite IH]. Qed.

Lemma encode_unit_safe (c : ascii) :
  forallb (fun x => unreserved x || Ascii.eqb x "%")
    (list_ascii_of_string (encode_unit c)) = true.
Proof. destruct c as [[|] [|] [|] [|] [|] [|] [|] [|]]; vm_compute; reflexivity. Qed.

Lemma decode_encode_unit (c : ascii) (rest : string) :
  decode_unit (encode_unit c ++ rest) = Some (c, rest).
Proof. destruct c as [[|] [|] [|] [|] [|] [|] [|] [|]]; vm_compute; reflexivity. Qed.

Lemma encode_safe (s : string) (x : ascii) :
  In x (list_ascii_of_string (encodeURIComponent s)) ->
  unreserved x = true \/ x = "%"%char.
Proof.
  induction s as [|c s IH]; cbn [encodeURIComponent]; [intros []|].
  rewrite chars_append. intros H. apply in_app_or in H. destruct H as [H|H]; [|now apply IH].
  pose proof (encode_unit_safe c) as F. rewrite forallb_forall in F.
  apply F in H. apply orb_true_iff in H. destruct H as [H|H]; [now left|].
  right. now apply Ascii.eqb_eq.
Qed.

Lemma encode_injective (a b : string) :
  encodeURIComponent a = encodeURIComponent b -> a = b.
Proof.
  revert b. induction a as [|c a IH]; intros [|d b] H; cbn [encodeURIComponent] in H.
  - reflexivity.
  - apply (f_equal decode_unit) in H. rewrite decode_encode_unit in H. discriminate.
  - apply (f_equal decode_unit) in H. rewrite decode_encode_unit in H. discriminate.
  - apply (f_equal decode_unit) in H. rewrite !decode_encode_unit in H.
    injection H as -> H. f_equal. now apply IH.
Qed.

Lemma encode_fixes_unreserved (s : string) :
  (forall x, In x (list_ascii_of_string s) -> unreserved x = true) ->
  encodeURIComponent s = s.
Proof.
  induction s as [|c s IH]; intros H; cbn [encodeURIComponent]; [reflexivity|].
  unfold encode_unit. rewrite (H c) by now left.
  cbn. f_equal. apply IH. intros x Hx. apply H. now right.
Qed.

Lemma includes_char (s : string) (x : ascii) :
  includes s (String x "") = true -> In x (list_ascii_of_string s).
Proof.
  induction s as [|c s IH]; [discriminate|].
  rewrite includes_cons. intros H. apply orb_true_iff in H. destruct H as [H|H].
  - apply prefix_cons in H. left. symmetry. apply H.
  - right. now apply IH.
Qed.

Lemma length_append (a b : string) :
  String.length (a ++ b) = String.length a + String.length b.
Proof. induction a as [|c a IH]; cbn; [reflexivity | now rewrite IH]. Qed.

Lemma append_cancel_r (a b x : string) : a ++ x = b ++ x -> a = b.
Proof.
  revert b. induction a as [|c a IH]; intros [|d b] H.
  - reflexivity.
  - apply (f_equal String.length) in H. cbn in H. rewrite ?length_append in H. lia.
  - apply (f_equal String.length) in H. cbn in H. rewrite ?length_append in H. lia.
  - cbn in H. injection H as -> H. f_equal. now apply IH.
Qed.

(** The login URL has one query parameter, whatever the origin is: its
    query is [redirect=] followed by the encoded return address, in which
    none of [& # ? = / : +] and no space occurs; and the return address is
    not lost, two origins with the same login URL are the same. *)
Theorem login_url_has_one_parameter (origin : string) :
  after "?" (loginUrl origin) = Some ("redirect=" ++ redirectUrl origin) /\
  (forall x, In x (list_ascii_of_string "&#?=/:+ ") ->
             includes (redirectUrl origin) (String x "") = false) /\
  (forall other, loginUrl origin = loginUrl other -> origin = other).
Proof.
  split; [reflexivity|]. split.
  - intros x Hx.
    destruct (includes (redirectUrl origin) (String x "")) eqn:I; [|reflexivity].
    exfalso. apply includes_char, encode_safe in I.
    assert (unreserved x = false /\ x <> "%"%char) as [U P].
    { cbn in Hx.
      repeat (destruct Hx as [<- | Hx]; [split; [reflexivity | discriminate]|]).
      destruct Hx. }
    destruct I; congruence.
  - intros other H. unfold loginUrl in H. apply append_cancel_l in H.
    apply encode_injective in H. now apply append_cancel_r in H.
Qed.

End LoginUrl.

(** ** Concrete runs of the pages *)

Section MoreRuns.

Import Sample PageSample.

Lemma shell_never_adds_an_entry_witness :
  live backend [Core (ResolverSettles (Rejected unauthorized)); Render]
    (mount backend (visit "/dashboard" "" "")) = Some bounced /\
  behind (history bounced) = [] /\
  ahead (history bounced) = [] /\
  List.length (entries (history bounced)) = 1 /\
  (rooted "/dashboard" = true ->
   pathname (current (history bounced)) = "/dashboard" \/
   current (history bounced) = home).
Proof.
  split; [reflexivity|].
  exact (shell_never_adds_an_entry backend (visit "/dashboard" "" "")
           [Core (ResolverSettles (Rejected unauthorized)); Render] bounced eq_refl).
Defined.

Lemma rendering_settles_witness :
  2 <= 3 /\
  exists h' shown final,
    present 3 (app signed_out) (visit "/dashboard" "" "") = Some (h', shown) /\
    present 2 (app signed_out) (visit "/dashboard" "" "") = Some (h', shown) /\
    List.length shown <= 2 /\
    last shown NoMatch = final /\
    (forall to replace, final <> Navigate to replace) /\
    final = App (app signed_out) (pathname (current h')).
Proof.
  split; [lia|].
  exact (rendering_settles 3 (app signed_out) (visit "/dashboard" "" "") (le_S 2 2 (le_n 2))).
Defined.

Lemma handleLogout_witness :
  pending (app signed_in) = false /\
  history (snd (handleLogout backend (Rejected network_error) signed_in)) =
    pushState home (history signed_in) /\
  user (app (snd (handleLogout backend (Rejected network_error) signed_in))) = ann.
Proof.
  split; [reflexivity|].
  destruct (handleLogout_ends_on_landing backend (Rejected network_error) signed_in eq_refl)
    as (_ & H & _ & U).
  split; [exact H | exact U].
Defined.

Lemma get_started_witness :
  pending (app signed_in) = false /\
  handleGetStarted "https://learnmate.example" signed_in =
    (inr None,
     mkWorld (app signed_in) (pushState (mkLocation "/tutor" "" "") (history signed_in))
       (log signed_in) (resolving signed_in) (logouts signed_in)) /\
  pending (app signed_out) = false /\
  handleGetStarted "https://learnmate.example" signed_out =
    (inr (Some (loginUrl "https://learnmate.example")), signed_out).
Proof.
  split; [reflexivity|].
  split; [exact (proj1 (get_started_never_meets_the_guard "https://learnmate.example"
                          signed_in eq_refl))|].
  split; [reflexivity|].
  exact (get_started_never_meets_the_guard "https://learnmate.example" signed_out eq_refl).
Defined.

Lemma features_offers_witness :
  pending (app signed_out) = false /\
  featuresNav "https://learnmate.example" (app signed_out) =
    LoginButton (loginUrl "https://learnmate.example") /\
  App (app signed_out) "/tutor" = Navigate "/" true /\
  App (app signed_out) "/dashboard" = Navigate "/" true.
Proof.
  split; [reflexivity|]. split; [reflexivity|].
  exact (proj2 (features_offers_agree_with_guard "https://learnmate.example"
                  (app signed_out) eq_refl)).
Defined.

Lemma features_cta_witness :
  truthy (user (app signed_in)) = true /\
  exists w,
    assign backend (featuresCta "https://learnmate.example" (app signed_in))
      (visit "/features" "" "") = Some w /\
    history w = pushState (mkLocation "/tutor" "" "") (visit "/features" "" "") /\
    phase_of (app w) = PENDING /\
    user (app w) = VNull /\
    log w = [Request GET (API backend ++ "/auth/me") None].
Proof.
  split; [reflexivity|].
  exact (features_cta_reloads backend "https://learnmate.example" (app signed_in)
           (visit "/features" "" "") eq_refl).
Defined.

Lemma xp_witness :
  optional (VObj [("xp_points", VNum 250)]) "xp_points" = VNum 250 /\
  (0 <= 250)%Z /\
  (250 + 100 <= 2 ^ 53)%Z /\
  DashboardPage.xp_points (VObj [("xp_points", VNum 250)]) = VNum 250 /\
  DashboardPage.getXPLevel 250 = Some 3%Z /\
  DashboardPage.getXPProgress 250 = Some 50%Z.
Proof.
  split; [reflexivity|]. split; [lia|]. split; [lia|].
  destruct (xp_splits_into_level_and_bar (VObj [("xp_points", VNum 250)]) 250 eq_refl
              ltac:(lia) ltac:(lia)) as (X & _).
  split; [exact X|]. split; reflexivity.
Defined.

Lemma messages_only_grow_witness :
  TutorPage.act backend (TutorPage.ClickSend "t1") (typed, []) =
    Some (TutorPage.mkState (VObj []) (Some math)
            [TutorPage.greeting math "2025-01-01T00:00:00.000Z";
             TutorPage.mkMessage "user" (VStr "What is a prime?") (VStr "t1")]
            "" true VNull 1,
          [chat_request backend typed math]) /\
  ((exists topic now, TutorPage.ClickSend "t1" = TutorPage.SelectTopic topic now /\
                      [TutorPage.greeting math "2025-01-01T00:00:00.000Z";
                       TutorPage.mkMessage "user" (VStr "What is a prime?") (VStr "t1")] =
                      [TutorPage.greeting topic now]) \/
   exists more,
     [TutorPage.greeting math "2025-01-01T00:00:00.000Z";
      TutorPage.mkMessage "user" (VStr "What is a prime?") (VStr "t1")] =
     (TutorPage.messages typed ++ more)%list).
Proof.
  split; [reflexivity|].
  exact (messages_only_grow backend (TutorPage.ClickSend "t1") (typed, []) _ eq_refl).
Defined.

Lemma blank_send_witness :
  (forall c, In c (list_ascii_of_string "   ") -> white c = true) /\
  TutorPage.handleSendMessage backend "2025-01-01T00:00:02.000Z" (Fulfilled reply)
    (TutorPage.mkState (VObj []) (Some math) [] "   " false VNull 0, []) =
  (inr tt, (TutorPage.mkState (VObj []) (Some math) [] "   " false VNull 0, [])).
Proof.
  assert (forall c, In c (list_ascii_of_string "   ") -> white c = true) as B.
  { intros c [<- | [<- | [<- | []]]]; reflexivity. }
  split; [exact B|].
  exact (proj1 (blank_send_does_nothing backend "2025-01-01T00:00:02.000Z" (Fulfilled reply)
                  (TutorPage.mkState (VObj []) (Some math) [] "   " false VNull 0) []
                  (or_intror B))).
Defined.

Lemma send_witness :
  TutorPage.selectedTopic typed = Some math /\
  trim (TutorPage.inputMessage typed) <> "" /\
  TutorPage.loading
    (fst (snd (TutorPage.handleSendMessage backend "2025-01-01T00:00:02.000Z"
                 (Fulfilled reply) (typed, [])))) = false /\
  TutorPage.inputMessage
    (fst (snd (TutorPage.handleSendMessage backend "2025-01-01T00:00:02.000Z"
                 (Fulfilled reply) (typed, [])))) = "".
Proof.
  assert (trim (TutorPage.inputMessage typed) <> "") as N by discriminate.
  split; [reflexivity|]. split; [exact N|].
  destruct (send_appends_message_and_reply backend "2025-01-01T00:00:02.000Z"
              (Fulfilled reply) typed [] math eq_refl N) as (_ & L & E & _).
  split; [exact L | exact E].
Defined.

Lemma chat_id_witness :
  TutorPage.acts backend
    [TutorPage.ClickSend "t1"; TutorPage.SelectTopic art "t2";
     TutorPage.ChatSettles (Fulfilled reply); TutorPage.TypeText "And a hue?"]
    (typed, []) = Some switched /\
  TutorPage.act backend (TutorPage.ClickSend "t3") switched = Some switched_and_sent /\
  exists topic,
    TutorPage.selectedTopic (fst switched) = Some topic /\
    snd switched_and_sent =
      (snd switched ++
       [Did (Request POST (API backend ++ "/chat")
               (Some (VObj [("message", VStr "And a hue?");
                            ("topic", VStr (TutorPage.name topic));
                            ("chat_id", VStr "c1")])))])%list.
Proof.
  split; [reflexivity|]. split; [reflexivity|].
  exact (chat_id_follows_last_reply_or_selection backend
           [TutorPage.ClickSend "t1"; TutorPage.SelectTopic art "t2";
            TutorPage.ChatSettles (Fulfilled reply); TutorPage.TypeText "And a hue?"]
           (typed, []) switched switched_and_sent "t3" eq_refl eq_refl).
Defined.

Lemma reply_joins_witness :
  exists w,
    TutorPage.acts backend
      [TutorPage.ClickSend "t1"; TutorPage.SelectTopic art "t2";
       TutorPage.ChatSettles (Fulfilled reply)]
      (typed, []) = Some w /\
    TutorPage.selectedTopic (fst w) = Some art /\
    TutorPage.messages (fst w) =
      [TutorPage.greeting art "t2";
       TutorPage.mkMessage "assistant" (VStr "Sure.") (VStr "2025-01-01T00:00:01.000Z")] /\
    TutorPage.chatId (fst w) = VStr "c1" /\
    TutorPage.loading (fst w) = false /\
    snd w = [chat_request backend typed math].
Proof.
  assert (trim (TutorPage.inputMessage typed) <> "") as N by discriminate.
  exact (reply_joins_the_open_conversation backend typed [] math art "t1" "t2" reply
           eq_refl eq_refl N eq_refl).
Defined.

Lemma one_chat_request_witness :
  TutorPage.acts backend
    [TutorPage.SelectTopic math "t0"; TutorPage.TypeText "What is a prime?";
     TutorPage.PressKey "Enter" false "t1"]
    (TutorPage.initial, []) = Some asked /\
  TutorPage.inflight (fst asked) <= 1 /\
  (TutorPage.loading (fst asked) = true <-> TutorPage.inflight (fst asked) = 1).
Proof.
  split; [reflexivity|].
  destruct (one_chat_request_at_a_time backend
              [TutorPage.SelectTopic math "t0"; TutorPage.TypeText "What is a prime?";
               TutorPage.PressKey "Enter" false "t1"] asked eq_refl) as (I & L & _).
  split; [exact I | exact L].
Defined.

End MoreRuns.
